(** * webhook-dispatcher: ingestion, persistence and dispatch pipeline

    A shallow embedding of [pkg/server] and [pkg/storage] of
    sikalabs/webhook-dispatcher, and the properties of its specification
    stated and settled on that embedding.

    Go strings are byte sequences; they are modelled by [string], whose
    characters are the 8-bit [ascii].  The external services (Redis, MongoDB,
    the clock, the outbound HTTP client) are modelled by an explicit [World]
    that every effectful function threads through. *)

From Stdlib Require Import ZArith Ascii String List Bool Lia.
From Stdlib Require Import DecimalString.
From stdpp Require Import base gmap strings list fin_maps.

Local Open Scope Z_scope.

(* ===================================================================== *)
(** * Part 1. Byte strings and the parts of [strings] and [regexp] used  *)
(* ===================================================================== *)

Module GoString.

Definition byte_in (lo hi c : ascii) : bool :=
  (N_of_ascii lo <=? N_of_ascii c)%N && (N_of_ascii c <=? N_of_ascii hi)%N.

Definition is_lower (c : ascii) : bool := byte_in "a" "z" c.
Definition is_upper (c : ascii) : bool := byte_in "A" "Z" c.
Definition is_digit (c : ascii) : bool := byte_in "0" "9" c.
Definition is_hyphen (c : ascii) : bool := Ascii.eqb c "-".
Definition is_slash (c : ascii) : bool := Ascii.eqb c "/".

(** [strings.Trim(s, cutset)] for a cutset of one ASCII byte, which Go
    computes as [trimLeftByte(trimRightByte(s, c), c)]. *)
Fixpoint trimLeftByte (s : string) (c : ascii) : string :=
  match s with
  | EmptyString => EmptyString
  | String a s' => if Ascii.eqb a c then trimLeftByte s' c else s
  end.

Fixpoint trimRightByte (s : string) (c : ascii) : string :=
  match s with
  | EmptyString => EmptyString
  | String a s' =>
      match trimRightByte s' c with
      | EmptyString => if Ascii.eqb a c then EmptyString else String a EmptyString
      | t => String a t
      end
  end.

Definition Trim (s : string) (c : ascii) : string :=
  trimLeftByte (trimRightByte s c) c.

(** [strings.ReplaceAll(s, old, new)] for [old] and [new] of one byte. *)
Fixpoint ReplaceAll (s : string) (old new : ascii) : string :=
  match s with
  | EmptyString => EmptyString
  | String a s' =>
      String (if Ascii.eqb a old then new else a) (ReplaceAll s' old new)
  end.

(** [regexp.MustCompile("[...]+").ReplaceAllString(s, repl)] for a class
    [cls] of bytes: every maximal non-empty run of bytes of the class is
    replaced by [repl].  [in_run] tells that the previous byte belonged to a
    run whose replacement has been emitted already.

    The two expressions of [slugify] are of this shape.  The class of the
    first one is the complement of ASCII bytes, so every byte of a
    multi-byte or ill-formed UTF-8 sequence (all of them are >= 0x80)
    belongs to it, and runs of runes and runs of bytes coincide. *)
Fixpoint replaceRuns (cls : ascii -> bool) (repl : string) (in_run : bool)
         (s : string) : string :=
  match s with
  | EmptyString => EmptyString
  | String a s' =>
      if cls a then
        if in_run then replaceRuns cls repl true s'
        else repl +:+ replaceRuns cls repl true s'
      else String a (replaceRuns cls repl false s')
  end.

Definition ReplaceAllString (cls : ascii -> bool) (s repl : string) : string :=
  replaceRuns cls repl false s.

(** [strings.ToLower] on its ASCII path: [s] is returned with 'A'..'Z'
    moved to 'a'..'z'.  (On input with a byte >= 0x80 Go maps runes through
    [unicode.ToLower]; [slugify] only calls it on ASCII input, see
    [slugify_ToLower_input_ascii].) *)
Definition lower_byte (c : ascii) : ascii :=
  if is_upper c then ascii_of_N (N_of_ascii c + 32) else c.

Fixpoint ToLower (s : string) : string :=
  match s with
  | EmptyString => EmptyString
  | String a s' => String (lower_byte a) (ToLower s')
  end.

(** Predicates on byte strings. *)
Fixpoint all_bytes (P : ascii -> bool) (s : string) : bool :=
  match s with
  | EmptyString => true
  | String a s' => P a && all_bytes P s'
  end.

Definition first_is (P : ascii -> bool) (s : string) : bool :=
  match s with
  | EmptyString => false
  | String a _ => P a
  end.

Fixpoint last_is (P : ascii -> bool) (s : string) : bool :=
  match s with
  | EmptyString => false
  | String a EmptyString => P a
  | String _ s' => last_is P s'
  end.

Fixpoint no_adjacent (P : ascii -> bool) (s : string) : bool :=
  match s with
  | EmptyString => true
  | String a s' => negb (P a && first_is P s') && no_adjacent P s'
  end.

Definition is_ascii (c : ascii) : bool := (N_of_ascii c <? 128)%N.

End GoString.

(* ===================================================================== *)
(** * Part 2. KeyGenerator: [slugify] and the storage key                *)
(* ===================================================================== *)

(** The class [a-zA-Z0-9-_] of the first expression of [slugify]. *)
Definition slug_class (c : ascii) : bool :=
  GoString.is_lower c || GoString.is_upper c || GoString.is_digit c
  || GoString.is_hyphen c || Ascii.eqb c "_".

(** What the specification allows in a slug. *)
Definition slug_byte (c : ascii) : bool :=
  GoString.is_lower c || GoString.is_digit c
  || GoString.is_hyphen c || Ascii.eqb c "_".

(** The pipeline of [slugify] after the test for the empty path. *)
Definition slugify_steps (path : string) : string :=
  let path := GoString.ReplaceAll path "/" "-" in
  let path := GoString.ReplaceAllString (fun c => negb (slug_class c)) path "-" in
  let path := GoString.ReplaceAllString GoString.is_hyphen path "-" in
  let path := GoString.Trim path "-" in
  GoString.ToLower path.

Definition slugify (path : string) : string :=
  let path := GoString.Trim path "/" in
  if String.eqb path "" then "root" else slugify_steps path.

(** [fmt]'s [%d] of an [int64]: the decimal digits, with a leading '-' below
    zero. *)
Definition fmt_d (n : Z) : string := NilZero.string_of_int (Z.to_int n).

(** [fmt.Sprintf("webhook-%s-%d", slugifiedPath, unixTime)]. *)
Definition Sprintf_key (slugifiedPath : string) (unixTime : Z) : string :=
  "webhook-" +:+ slugifiedPath +:+ "-" +:+ fmt_d unixTime.

(* ===================================================================== *)
(** * Part 3. The world outside the process                              *)
(* ===================================================================== *)

(** A Go [error] is modelled by its message; [nil] is [None]. *)
Definition error := string.

(** [time.Time], by its wall-clock seconds and nanoseconds. *)
Record Time := mkTime { unix_sec : Z; nsec : Z }.

(** [t.Unix()]. *)
Definition Unix (t : Time) : Z := unix_sec t.

(** [storage.Event] of pkg/storage/storage.go. *)
Record Event := mkEvent {
  Key : string;
  Path : string;
  Body : string;
  Timestamp : Time
}.

(** Go's [int64]: arithmetic wraps around. *)
Definition int64 (z : Z) : Z := (z + 2 ^ 63) mod 2 ^ 64 - 2 ^ 63.

(** What the BSON codec of the driver makes of an [Event] that is handed to
    [InsertOne], and so what the collection holds. *)
Module Bson.

(** A document of the collection, by the fields the codec writes from the
    [bson] tags of [Event].  [timestamp] is a BSON datetime: the
    milliseconds since the epoch, in an [int64].  (The driver also gives a
    document that has no [_id] an ObjectID of its own making; no code of
    the repository reads it, and it is left out.) *)
Record Document := mkDocument {
  key : string;
  path : string;
  body : string;
  timestamp : Z
}.

(** [primitive.NewDateTimeFromTime], by which the codec encodes a
    [time.Time]: [t.Unix()*1e3 + int64(t.Nanosecond())/1e6].  What is
    below the millisecond is dropped. *)
Definition NewDateTimeFromTime (t : Time) : Z :=
  int64 (int64 (Unix t * 1000) + Z.quot (nsec t) 1000000).

Definition Marshal (e : Event) : Document :=
  mkDocument (Key e) (Path e) (Body e) (NewDateTimeFromTime (Timestamp e)).

End Bson.

Arguments Bson.NewDateTimeFromTime : simpl never.

(** [http.Header]: a map from canonical header names to their values. *)
Definition Header_Get (h : gmap string (list string)) (key : string) : string :=
  match h !! key with
  | Some (v :: _) => v
  | _ => ""
  end.

Definition Header_Set (h : gmap string (list string)) (key value : string)
  : gmap string (list string) :=
  <[key := [value]]> h.

(** An outbound [*http.Request] as [http.NewRequest] and the header calls
    leave it. *)
Record OutRequest := mkOutRequest {
  out_Method : string;
  out_URL : string;
  out_Body : string;
  out_Header : gmap string (list string)
}.

(** The operations on external services that may fail. *)
Inductive Op :=
| OpRedisSet | OpRedisKeys | OpRedisClose
| OpMongoInsertOne | OpMongoDisconnect.

(** What was asked of the external services, in order (oldest first). *)
Inductive Call :=
| CallRedisSet (key value : string)
| CallRedisKeys (pattern : string)
| CallRedisClose
| CallMongoInsertOne (e : Event)
| CallMongoDisconnect
| CallHttpDo (req : OutRequest).

(** A goroutine started by [forwardToTargets] and not yet run: the values its
    closure holds. *)
Record Goroutine := mkGoroutine {
  go_url : string;
  go_body : string;
  go_headers : gmap string (list string)
}.

Record World := mkWorld {
  redis_db : gmap string string;        (* the Redis keyspace *)
  mongo_coll : list Bson.Document;      (* the MongoDB collection, oldest first *)
  fault : Op -> option error;           (* the error a service answers with *)
  http_Do : OutRequest -> Z + error;    (* client.Do: a status code or an error *)
  clock : nat -> Time;                  (* successive readings of the clock *)
  clock_reads : nat;
  calls : list Call;
  log : list string;
  goroutines : list Goroutine           (* started, not yet run *)
}.

(** Effectful code threads the world. *)
Definition M (A : Type) : Type := World -> A * World.

Definition ret {A} (a : A) : M A := fun w => (a, w).
Definition bind {A B} (m : M A) (k : A -> M B) : M B :=
  fun w => let (a, w') := m w in k a w'.

Declare Scope m_scope.
Delimit Scope m_scope with M.
Notation "x <- m ;; k" := (bind m (fun x => k))
  (at level 100, m at next level, right associativity) : m_scope.
Notation "m ;;; k" := (bind m (fun _ => k))
  (at level 100, right associativity) : m_scope.
Local Open Scope m_scope.

Definition set_redis_db (f : gmap string string -> gmap string string) (w : World) : World :=
  mkWorld (f (redis_db w)) (mongo_coll w) (fault w) (http_Do w) (clock w)
          (clock_reads w) (calls w) (log w) (goroutines w).
Definition set_mongo_coll (f : list Bson.Document -> list Bson.Document)
           (w : World) : World :=
  mkWorld (redis_db w) (f (mongo_coll w)) (fault w) (http_Do w) (clock w)
          (clock_reads w) (calls w) (log w) (goroutines w).
Definition set_clock_reads (f : nat -> nat) (w : World) : World :=
  mkWorld (redis_db w) (mongo_coll w) (fault w) (http_Do w) (clock w)
          (f (clock_reads w)) (calls w) (log w) (goroutines w).
Definition set_calls (f : list Call -> list Call) (w : World) : World :=
  mkWorld (redis_db w) (mongo_coll w) (fault w) (http_Do w) (clock w)
          (clock_reads w) (f (calls w)) (log w) (goroutines w).
Definition set_log (f : list string -> list string) (w : World) : World :=
  mkWorld (redis_db w) (mongo_coll w) (fault w) (http_Do w) (clock w)
          (clock_reads w) (calls w) (f (log w)) (goroutines w).
Definition set_goroutines (f : list Goroutine -> list Goroutine) (w : World) : World :=
  mkWorld (redis_db w) (mongo_coll w) (fault w) (http_Do w) (clock w)
          (clock_reads w) (calls w) (log w) (f (goroutines w)).

(** [log.Printf], by the formatted line. *)
Definition log_Printf (line : string) : M unit :=
  fun w => (tt, set_log (fun l => l ++ [line]) w).

(** [time.Now()]. *)
Definition time_Now : M Time :=
  fun w => (clock w (clock_reads w), set_clock_reads S w).

Definition record_call (c : Call) : M unit :=
  fun w => (tt, set_calls (fun l => l ++ [c]) w).

(** The go-redis and mongo-driver calls the storage package makes.  A call
    that a service answers with an error leaves the stored data as it was.
    [InsertOne] is recorded with the [Event] it was given; the collection
    gains the document the codec makes of it. *)
Definition redis_Set (key value : string) : M (option error) :=
  record_call (CallRedisSet key value) ;;;
  fun w => match fault w OpRedisSet with
           | Some e => (Some e, w)
           | None => (None, set_redis_db (fun db => <[key := value]> db) w)
           end.

(** The keys a glob pattern ending in '*' selects are those the text before
    the '*' is a prefix of. *)
Definition glob_prefix_match (prefix key : string) : bool :=
  String.prefix prefix key.

Definition redis_Keys_prefix (prefix : string) : M (list string + error) :=
  record_call (CallRedisKeys (prefix +:+ "*")) ;;;
  fun w => match fault w OpRedisKeys with
           | Some e => (inr e, w)
           | None =>
               (inl (List.filter (glob_prefix_match prefix)
                                 (map fst (map_to_list (redis_db w)))), w)
           end.

Definition redis_Close : M (option error) :=
  record_call CallRedisClose ;;;
  fun w => (fault w OpRedisClose, w).

Definition mongo_InsertOne (e : Event) : M (option error) :=
  record_call (CallMongoInsertOne e) ;;;
  fun w => match fault w OpMongoInsertOne with
           | Some err => (Some err, w)
           | None => (None, set_mongo_coll (fun c => c ++ [Bson.Marshal e]) w)
           end.

Definition mongo_Disconnect : M (option error) :=
  record_call CallMongoDisconnect ;;;
  fun w => (fault w OpMongoDisconnect, w).

(* ===================================================================== *)
(** * Part 4. pkg/storage                                                *)
(* ===================================================================== *)

(** The [Storage] interface of pkg/storage/storage.go. *)
Record Storage := mkStorage {
  Store : string -> string -> string -> M (option error);
  Count : M (Z * option error);
  Close : M (option error)
}.

(** ** pkg/storage/redis.go *)

Definition RedisStorage_Store (key path body : string) : M (option error) :=
  redis_Set key body.

Definition RedisStorage_Count : M (Z * option error) :=
  r <- redis_Keys_prefix "webhook-" ;;
  match r with
  | inr err => ret (0, Some ("failed to count keys: " +:+ err))
  | inl keys => ret (Z.of_nat (length keys), None)
  end.

Definition RedisStorage_Close : M (option error) := redis_Close.

Definition RedisStorage : Storage :=
  mkStorage RedisStorage_Store RedisStorage_Count RedisStorage_Close.

(** ** pkg/storage/mongodb.go *)

Definition MongoDBStorage_Store (key path body : string) : M (option error) :=
  now <- time_Now ;;
  let event := mkEvent key path body now in
  err <- mongo_InsertOne event ;;
  match err with
  | Some e => ret (Some ("failed to insert event to MongoDB: " +:+ e))
  | None => ret None
  end.

Definition MongoDBStorage_Close : M (option error) := mongo_Disconnect.

(** ** pkg/storage/dual.go *)

Definition DualStorage_Store (key path body : string) : M (option error) :=
  err <- RedisStorage_Store key path body ;;
  match err with
  | Some e => ret (Some e)
  | None =>
      err <- MongoDBStorage_Store key path body ;;
      match err with
      | Some e => log_Printf ("Warning: Failed to store in MongoDB: " +:+ e)
      | None => ret tt
      end ;;;
      ret None
  end.

Definition DualStorage_Count : M (Z * option error) := RedisStorage_Count.

Definition DualStorage_RedisCount : M (Z * option error) := RedisStorage_Count.

Definition DualStorage_Close : M (option error) :=
  redisErr <- (err <- RedisStorage_Close ;;
               match err with
               | Some e => log_Printf ("Error closing Redis connection: " +:+ e) ;;;
                           ret (Some e)
               | None => ret None
               end) ;;
  mongoErr <- (err <- MongoDBStorage_Close ;;
               match err with
               | Some e => log_Printf ("Error closing MongoDB connection: " +:+ e) ;;;
                           ret (Some e)
               | None => ret None
               end) ;;
  match redisErr with
  | Some e => ret (Some e)
  | None => ret mongoErr
  end.

Definition DualStorage : Storage :=
  mkStorage DualStorage_Store DualStorage_Count DualStorage_Close.

(* ===================================================================== *)
(** * Part 5. pkg/server                                                 *)
(* ===================================================================== *)

(** [DispatchRule] and [Config].  ([Rule_Path] is the field [Path] of
    [DispatchRule]; the name [Path] is taken by [Event].) *)
Record DispatchRule := mkDispatchRule {
  Rule_Path : string;
  Rule_Targets : list string
}.

Record Config := mkConfig {
  SchemaVersion : Z;
  Dispatch : list DispatchRule
}.

(** The inbound [*http.Request]: the fields the handlers read, and what
    [io.ReadAll(r.Body)] returns. *)
Record Request := mkRequest {
  Method : string;
  URL_Path : string;
  RemoteAddr : string;
  Header : gmap string (list string);
  ReadAll_Body : string * option error
}.

(** What the handler wrote to the [http.ResponseWriter]. *)
Record Response := mkResponse {
  resp_status : Z;
  resp_header : gmap string (list string);
  resp_body : string
}.

Definition StatusOK : Z := 200.
Definition StatusBadRequest : Z := 400.
Definition StatusInternalServerError : Z := 500.

(** The byte of a line feed, as a string. *)
Definition newline : string := String (ascii_of_N 10) EmptyString.

(** [http.Error(w, msg, code)]. *)
Definition http_Error (msg : string) (code : Z) : Response :=
  mkResponse code
    (Header_Set (Header_Set ∅ "Content-Type" "text/plain; charset=utf-8")
                "X-Content-Type-Options" "nosniff")
    (msg +:+ newline).

(** [findTargets]. *)
Fixpoint findTargets_rules (path : string) (rules : list DispatchRule) : list string :=
  match rules with
  | [] => []
  | rule :: rest =>
      if String.eqb (Rule_Path rule) path then Rule_Targets rule
      else findTargets_rules path rest
  end.

Definition findTargets (path : string) (config : Config) : list string :=
  findTargets_rules path (Dispatch config).

(** [go f(target)]: the goroutine is started and runs later. *)
Definition go (g : Goroutine) : M unit :=
  fun w => (tt, set_goroutines (fun l => l ++ [g]) w).

(** [forwardToTargets]: one goroutine per target, in the order of the
    targets. *)
Fixpoint forwardToTargets (targets : list string) (body : string)
         (headers : gmap string (list string)) : M unit :=
  match targets with
  | [] => ret tt
  | target :: rest =>
      go (mkGoroutine target body headers) ;;;
      forwardToTargets rest body headers
  end.

Definition client_Do (req : OutRequest) : M (Z + error) :=
  record_call (CallHttpDo req) ;;;
  fun w => (http_Do w req, w).

Definition log_headers (h : gmap string (list string)) : list string :=
  flat_map (fun nv => map (fun value => "  " +:+ fst nv +:+ ": " +:+ value) (snd nv))
           (map_to_list h).

Fixpoint log_lines (lines : list string) : M unit :=
  match lines with
  | [] => ret tt
  | l :: rest => log_Printf l ;;; log_lines rest
  end.

Section Server.

(** [json.Unmarshal(body, &jsonData)] into an [interface{}]: [None] when
    the body is well-formed JSON, the error otherwise. *)
Variable json_Unmarshal : string -> option error.

(** [url.Parse], through which [http.NewRequest] takes the target. *)
Variable url_Parse : string -> option error.

(** The page [handleHomepage] serves. *)
Variable homepage_html : string.

(** The package variable [enableLogging], set once by [Server]. *)
Variable enableLogging : bool.

(** [http.NewRequest(method, url, body)] for a valid method. *)
Definition http_NewRequest (method url body : string) : OutRequest + error :=
  match url_Parse url with
  | Some err => inr err
  | None => inl (mkOutRequest method url body ∅)
  end.

(** The request the goroutine of [forwardToTargets] hands to the client. *)
Definition outbound_request (req : OutRequest)
           (headers : gmap string (list string)) : OutRequest :=
  let h := Header_Set (out_Header req) "Content-Type"
                      (Header_Get headers "Content-Type") in
  let h := if String.eqb (Header_Get h "Content-Type") ""
           then Header_Set h "Content-Type" "application/json" else h in
  mkOutRequest (out_Method req) (out_URL req) (out_Body req) h.

(** The body of the goroutine of [forwardToTargets]. *)
Definition forward (g : Goroutine) : M unit :=
  let url := go_url g in
  match http_NewRequest "POST" url (go_body g) with
  | inr err =>
      log_Printf ("Failed to create request for " +:+ url +:+ ": " +:+ err)
  | inl req =>
      let req := outbound_request req (go_headers g) in
      r <- client_Do req ;;
      match r with
      | inr err =>
          log_Printf ("Failed to forward webhook to " +:+ url +:+ ": " +:+ err)
      | inl status =>
          log_Printf ("Forwarded webhook to " +:+ url +:+ " (status: "
                      +:+ fmt_d status +:+ ")")
      end
  end.

(** The calls the goroutine of [g] makes: one [client.Do] when the request
    can be constructed, none otherwise. *)
Definition attempts (g : Goroutine) : list Call :=
  match http_NewRequest "POST" (go_url g) (go_body g) with
  | inl req => [CallHttpDo (outbound_request req (go_headers g))]
  | inr _ => []
  end.

(** The scheduler runs the [i]-th goroutine that is waiting. *)
Definition run_goroutine (i : nat) : M unit :=
  fun w => match goroutines w !! i with
           | None => (tt, w)
           | Some g => forward g (set_goroutines (delete i) w)
           end.

Definition handleHomepage (r : Request) : M Response :=
  ret (mkResponse StatusOK
         (Header_Set ∅ "Content-Type" "text/html; charset=utf-8")
         homepage_html).

Definition log_request (r : Request) (body : string) : M unit :=
  if enableLogging then
    log_lines (["=== Incoming Request ===";
                "Method: " +:+ Method r;
                "Path: " +:+ URL_Path r;
                "Remote: " +:+ RemoteAddr r;
                "Headers:"]
               ++ log_headers (Header r)
               ++ ["Body: " +:+ body;
                   "========================"])
  else ret tt.

(** [handleWebhook] over a [storage.Storage]. *)
Definition handleWebhook (r : Request) (store : Storage) (config : Config)
  : M Response :=
  let (body, err) := ReadAll_Body r in
  match err with
  | Some e =>
      log_Printf ("Error reading body: " +:+ e) ;;;
      ret (http_Error "Failed to read request body" StatusBadRequest)
  | None =>
      log_request r body ;;;
      match json_Unmarshal body with
      | Some e =>
          log_Printf ("Invalid JSON from " +:+ RemoteAddr r +:+ ": " +:+ e) ;;;
          ret (http_Error "Invalid JSON" StatusBadRequest)
      | None =>
          let slugifiedPath := slugify (URL_Path r) in
          now <- time_Now ;;
          let unixTime := Unix now in
          let key := Sprintf_key slugifiedPath unixTime in
          err <- Store store key (URL_Path r) body ;;
          match err with
          | Some e =>
              log_Printf ("Failed to store webhook: " +:+ e) ;;;
              ret (http_Error "Failed to store webhook" StatusInternalServerError)
          | None =>
              log_Printf ("Stored webhook: " +:+ key +:+ " (path: "
                          +:+ URL_Path r +:+ ", size: "
                          +:+ fmt_d (Z.of_nat (String.length body))
                          +:+ " bytes)") ;;;
              let targets := findTargets (URL_Path r) config in
              (if (0 <? length targets)%nat
               then forwardToTargets targets body (Header r)
               else ret tt) ;;;
              ret (mkResponse StatusOK ∅
                     ("Webhook received and stored: " +:+ key +:+ newline))
          end
      end
  end.

(** [handleWebhook] of pkg/server/server.go, which writes to the Redis
    client itself. *)
Definition handleWebhook_rdb (r : Request) (config : Config) : M Response :=
  let (body, err) := ReadAll_Body r in
  match err with
  | Some e =>
      log_Printf ("Error reading body: " +:+ e) ;;;
      ret (http_Error "Failed to read request body" StatusBadRequest)
  | None =>
      log_request r body ;;;
      match json_Unmarshal body with
      | Some e =>
          log_Printf ("Invalid JSON from " +:+ RemoteAddr r +:+ ": " +:+ e) ;;;
          ret (http_Error "Invalid JSON" StatusBadRequest)
      | None =>
          let slugifiedPath := slugify (URL_Path r) in
          now <- time_Now ;;
          let unixTime := Unix now in
          let key := Sprintf_key slugifiedPath unixTime in
          err <- redis_Set key body ;;
          match err with
          | Some e =>
              log_Printf ("Failed to store in Redis: " +:+ e) ;;;
              ret (http_Error "Failed to store webhook" StatusInternalServerError)
          | None =>
              log_Printf ("Stored webhook: " +:+ key +:+ " (path: "
                          +:+ URL_Path r +:+ ", size: "
                          +:+ fmt_d (Z.of_nat (String.length body))
                          +:+ " bytes)") ;;;
              let targets := findTargets (URL_Path r) config in
              (if (0 <? length targets)%nat
               then forwardToTargets targets body (Header r)
               else ret tt) ;;;
              ret (mkResponse StatusOK ∅
                     ("Webhook received and stored: " +:+ key +:+ newline))
          end
      end
  end.

(** The world in which the handler reaches the call of [Store]: the request
    may have been logged and the clock has been read once. *)
Definition at_store (r : Request) (w : World) : World :=
  set_clock_reads S (snd (log_request r (fst (ReadAll_Body r)) w)).

(** The key the handler composes for a request arriving in world [w]. *)
Definition request_key (r : Request) (w : World) : string :=
  Sprintf_key (slugify (URL_Path r)) (Unix (clock w (clock_reads w))).

(** [handleWebhook] as pkg/server/server.go first had it: no request log, no
    dispatch. *)
Definition handleWebhook_v1 (r : Request) : M Response :=
  let (body, err) := ReadAll_Body r in
  match err with
  | Some e =>
      log_Printf ("Error reading body: " +:+ e) ;;;
      ret (http_Error "Failed to read request body" StatusBadRequest)
  | None =>
      match json_Unmarshal body with
      | Some e =>
          log_Printf ("Invalid JSON from " +:+ RemoteAddr r +:+ ": " +:+ e) ;;;
          ret (http_Error "Invalid JSON" StatusBadRequest)
      | None =>
          let slugifiedPath := slugify (URL_Path r) in
          now <- time_Now ;;
          let unixTime := Unix now in
          let key := Sprintf_key slugifiedPath unixTime in
          err <- redis_Set key body ;;
          match err with
          | Some e =>
              log_Printf ("Failed to store in Redis: " +:+ e) ;;;
              ret (http_Error "Failed to store webhook" StatusInternalServerError)
          | None =>
              log_Printf ("Stored webhook: " +:+ key +:+ " (path: "
                          +:+ URL_Path r +:+ ", size: "
                          +:+ fmt_d (Z.of_nat (String.length body))
                          +:+ " bytes)") ;;;
              ret (mkResponse StatusOK ∅
                     ("Webhook received and stored: " +:+ key +:+ newline))
          end
      end
  end.

(** Go orders nothing between the goroutines of [forwardToTargets].  A
    schedule tells the order in which they come to run: each entry is the
    position, among the goroutines still waiting, of the one that runs
    next. *)
Fixpoint run_schedule (schedule : list nat) : M unit :=
  match schedule with
  | [] => ret tt
  | i :: rest => run_goroutine i ;;; run_schedule rest
  end.

(** The handler [Server] registers for "/". *)
Definition rootHandler (r : Request) (store : Storage) (config : Config)
  : M Response :=
  if String.eqb (Method r) "GET" && String.eqb (URL_Path r) "/"
  then handleHomepage r
  else handleWebhook r store config.

End Server.

(** Two decisions of [Server]: the configuration it goes on with after
    [loadConfig], and the backend it builds from MONGODB_URI. *)
Definition Server_config (loaded : Config + error) : Config :=
  match loaded with
  | inl config => config
  | inr _ => mkConfig 0 []
  end.

Definition Server_store (mongoURI : string) : Storage :=
  if String.eqb mongoURI "" then RedisStorage else DualStorage.

(** A schedule that runs every one of [n] waiting goroutines, and each of
    its entries names one that is waiting. *)
Fixpoint complete_schedule (n : nat) (schedule : list nat) : bool :=
  match schedule, n with
  | [], O => true
  | i :: rest, S n' => (i <? n)%nat && complete_schedule n' rest
  | _, _ => false
  end.

(* ===================================================================== *)
(** * Part 5b. Instances of the library functions                        *)
(* ===================================================================== *)

(** The handlers above take [json.Unmarshal] and [url.Parse] as parameters,
    and every general theorem holds for whatever these functions answer.
    The instances below stand for them only where a property is shown on a
    concrete request, at inputs on which they agree with the library. *)

Module Json.

(** The grammar of RFC 8259 as the scanner of encoding/json accepts it: one
    value between optional white space.  Two refusals of [json.Unmarshal]
    are left out here: more than 10000 nested arrays and objects, and a
    number that does not fit a [float64], such as 1e999. *)

Definition is_ws (c : ascii) : bool :=
  Ascii.eqb c " " || Ascii.eqb c (ascii_of_N 9)
  || Ascii.eqb c (ascii_of_N 10) || Ascii.eqb c (ascii_of_N 13).

Definition is_quote (c : ascii) : bool := Ascii.eqb c (ascii_of_N 34).

Definition is_hex (c : ascii) : bool :=
  GoString.is_digit c || GoString.byte_in "a" "f" c || GoString.byte_in "A" "F" c.

Definition is_simple_escape (c : ascii) : bool :=
  is_quote c || Ascii.eqb c "\" || Ascii.eqb c "/" || Ascii.eqb c "b"
  || Ascii.eqb c "f" || Ascii.eqb c "n" || Ascii.eqb c "r" || Ascii.eqb c "t".

Fixpoint skip_ws (s : string) : string :=
  match s with
  | String c s' => if is_ws c then skip_ws s' else s
  | EmptyString => EmptyString
  end.

(** What follows the closing quote of a string whose opening quote has been
    read. *)
Fixpoint string_rest (s : string) : option string :=
  match s with
  | EmptyString => None
  | String c s' =>
      if is_quote c then Some s'
      else if Ascii.eqb c "\" then
        match s' with
        | String e s'' =>
            if is_simple_escape e then string_rest s''
            else if Ascii.eqb e "u" then
              match s'' with
              | String h1 (String h2 (String h3 (String h4 s4))) =>
                  if is_hex h1 && is_hex h2 && is_hex h3 && is_hex h4
                  then string_rest s4 else None
              | _ => None
              end
            else None
        | EmptyString => None
        end
      else if (N_of_ascii c <? 32)%N then None
      else string_rest s'
  end.

Fixpoint skip_digits (s : string) : string :=
  match s with
  | String c s' => if GoString.is_digit c then skip_digits s' else s
  | EmptyString => EmptyString
  end.

Definition digits1 (s : string) : option string :=
  match s with
  | String c s' => if GoString.is_digit c then Some (skip_digits s') else None
  | EmptyString => None
  end.

Definition number_rest (s : string) : option string :=
  let s := match s with
           | String c s' => if Ascii.eqb c "-" then s' else s
           | EmptyString => s
           end in
  let int_part := match s with
                  | String c s' =>
                      if Ascii.eqb c "0" then Some s'
                      else if GoString.is_digit c then Some (skip_digits s')
                      else None
                  | EmptyString => None
                  end in
  match int_part with
  | None => None
  | Some s =>
      let frac := match s with
                  | String c s' => if Ascii.eqb c "." then digits1 s' else Some s
                  | EmptyString => Some s
                  end in
      match frac with
      | None => None
      | Some s =>
          match s with
          | String c s' =>
              if Ascii.eqb c "e" || Ascii.eqb c "E" then
                match s' with
                | String g s'' =>
                    if Ascii.eqb g "+" || Ascii.eqb g "-" then digits1 s''
                    else digits1 s'
                | EmptyString => None
                end
              else Some s
          | EmptyString => Some s
          end
      end
  end.

Fixpoint literal_rest (lit s : string) : option string :=
  match lit, s with
  | EmptyString, _ => Some s
  | String a lit', String b s' =>
      if Ascii.eqb a b then literal_rest lit' s' else None
  | String _ _, EmptyString => None
  end.

Fixpoint value (fuel : nat) (s : string) : option string :=
  match fuel with
  | O => None
  | S fuel =>
      match s with
      | EmptyString => None
      | String c s' =>
          if is_quote c then string_rest s'
          else if Ascii.eqb c "[" then
            match skip_ws s' with
            | String d r =>
                if Ascii.eqb d "]" then Some r else elements fuel (String d r)
            | EmptyString => None
            end
          else if Ascii.eqb c "{" then
            match skip_ws s' with
            | String d r =>
                if Ascii.eqb d "}" then Some r else members fuel (String d r)
            | EmptyString => None
            end
          else if Ascii.eqb c "t" then literal_rest "true" s
          else if Ascii.eqb c "f" then literal_rest "false" s
          else if Ascii.eqb c "n" then literal_rest "null" s
          else number_rest s
      end
  end
with elements (fuel : nat) (s : string) : option string :=
  match fuel with
  | O => None
  | S fuel =>
      match value fuel s with
      | None => None
      | Some r =>
          match skip_ws r with
          | String d r' =>
              if Ascii.eqb d "," then elements fuel (skip_ws r')
              else if Ascii.eqb d "]" then Some r'
              else None
          | EmptyString => None
          end
      end
  end
with members (fuel : nat) (s : string) : option string :=
  match fuel with
  | O => None
  | S fuel =>
      match s with
      | String q s' =>
          if is_quote q then
            match string_rest s' with
            | None => None
            | Some r =>
                match skip_ws r with
                | String d r' =>
                    if Ascii.eqb d ":" then
                      match value fuel (skip_ws r') with
                      | None => None
                      | Some r2 =>
                          match skip_ws r2 with
                          | String d2 r3 =>
                              if Ascii.eqb d2 "," then members fuel (skip_ws r3)
                              else if Ascii.eqb d2 "}" then Some r3
                              else None
                          | EmptyString => None
                          end
                      end
                    else None
                | EmptyString => None
                end
            end
          else None
      | EmptyString => None
      end
  end.

Definition Valid (data : string) : bool :=
  match value (2 + String.length data) (skip_ws data) with
  | Some r => match skip_ws r with EmptyString => true | _ => false end
  | None => false
  end.

(** [json.Unmarshal] into an [interface{}], up to the two refusals above;
    the text of the error is not modelled. *)
Definition Unmarshal (data : string) : option error :=
  if Valid data then None else Some "invalid character".

End Json.

Module Url.

(** The check of [url.Parse] for ASCII control characters, the first it
    makes.  [url.Parse] refuses more, a malformed percent escape for one,
    and wraps the message in a [*url.Error]; neither is modelled. *)
Definition is_ctl (c : ascii) : bool :=
  (N_of_ascii c <? 32)%N || Ascii.eqb c (ascii_of_N 127).

Definition Parse (rawURL : string) : option error :=
  if GoString.all_bytes (fun c => negb (is_ctl c)) rawURL then None
  else Some "net/url: invalid control character in URL".

End Url.

(** A world to run the code in: empty stores, services that answer, a clock
    that advances by one second at each reading. *)
Definition world0 : World :=
  mkWorld ∅ [] (fun _ => None) (fun _ => inl 200)
          (fun n => mkTime (1700000000 + Z.of_nat n) 0) 0 [] [] [].

(** [world0] with a clock whose readings are not whole milliseconds. *)
Definition world_ns : World :=
  mkWorld ∅ [] (fun _ => None) (fun _ => inl 200)
          (fun n => mkTime (1700000000 + Z.of_nat n) 123456789) 0 [] [] [].

Definition Op_eqb (a b : Op) : bool :=
  match a, b with
  | OpRedisSet, OpRedisSet | OpRedisKeys, OpRedisKeys
  | OpRedisClose, OpRedisClose | OpMongoInsertOne, OpMongoInsertOne
  | OpMongoDisconnect, OpMongoDisconnect => true
  | _, _ => false
  end.

(** The world in which the service answers [op] with the error [e]. *)
Definition with_fault (op : Op) (e : error) (w : World) : World :=
  mkWorld (redis_db w) (mongo_coll w)
          (fun o => if Op_eqb o op then Some e else fault w o)
          (http_Do w) (clock w) (clock_reads w) (calls w) (log w) (goroutines w).

(** A POST of [body] to [path], with the given Content-Type header when it
    is not empty. *)
Definition post (path body content_type : string) : Request :=
  mkRequest "POST" path "192.0.2.1:40000"
            (if String.eqb content_type "" then ∅
             else Header_Set ∅ "Content-Type" content_type)
            (body, None).

(** A configuration with one rule, and requests to its path and beside
    it. *)
Definition sample_config : Config :=
  mkConfig 1 [mkDispatchRule "/hooks/a"
                ["http://a.example/in"; "http://b.example/in"]].

Definition sample_request : Request := post "/hooks/a" "[1,2]" "text/plain".

Definition sample_bad_request : Request := post "/hooks/a" "not json" "".

Definition world_redis_down : World :=
  with_fault OpRedisSet "dial tcp 127.0.0.1:6379: connection refused" world0.

Definition world_mongo_down : World :=
  with_fault OpMongoInsertOne "server selection timeout" world0.

(* ===================================================================== *)
(** * Part 6. Properties of the key generator                           *)
(* ===================================================================== *)

(** ** Lemmas on the string functions *)

Section GoStringFacts.
Import GoString.

Ltac by_byte_cases c :=
  destruct c as [[] [] [] [] [] [] [] []]; vm_compute;
  try reflexivity; intros Hbyte; first [reflexivity | discriminate Hbyte].

Lemma is_hyphen_lower_byte c : is_hyphen (lower_byte c) = is_hyphen c.
Proof. by_byte_cases c. Qed.

Lemma slug_class_lower_byte c :
  slug_class c = true -> slug_byte (lower_byte c) = true.
Proof. by_byte_cases c. Qed.

Lemma slug_class_is_ascii c : slug_class c = true -> is_ascii c = true.
Proof. by_byte_cases c. Qed.

Lemma all_bytes_impl (P Q : ascii -> bool) s :
  (forall c, P c = true -> Q c = true) ->
  all_bytes P s = true -> all_bytes Q s = true.
Proof.
  intros HPQ. induction s as [|a s IH]; simpl; [reflexivity|].
  intros [Ha Hs]%andb_true_iff. rewrite (HPQ _ Ha), (IH Hs). reflexivity.
Qed.

Lemma all_bytes_In (P : ascii -> bool) s :
  all_bytes P s = true ->
  forall c, In c (list_ascii_of_string s) -> P c = true.
Proof.
  induction s as [|a s IH]; simpl; [intros _ c []|].
  intros [Ha Hs]%andb_true_iff c [<-|Hin]; [exact Ha|]. apply IH; assumption.
Qed.

Lemma append_nil_l (s : string) : "" +:+ s = s.
Proof. reflexivity. Qed.

Lemma append_cons (a : ascii) (s t : string) :
  String a s +:+ t = String a (s +:+ t).
Proof. reflexivity. Qed.

(** *** [replaceRuns] *)

Lemma all_bytes_replaceRuns (cls P : ascii -> bool) b s :
  P "-"%char = true ->
  all_bytes (fun c => cls c || P c) s = true ->
  all_bytes P (replaceRuns cls "-" b s) = true.
Proof.
  intros Hh. revert b. induction s as [|a s IH]; intros b; simpl; [reflexivity|].
  intros [Ha Hs]%andb_true_iff.
  destruct (cls a) eqn:Hc.
  - destruct b; simpl; [|rewrite Hh; simpl]; apply IH; exact Hs.
  - simpl in Ha. simpl. rewrite Ha. simpl. apply IH; exact Hs.
Qed.

Lemma replaceRuns_hyphen_shape b s :
  no_adjacent is_hyphen (replaceRuns is_hyphen "-" b s) = true /\
  first_is is_hyphen (replaceRuns is_hyphen "-" true s) = false.
Proof.
  revert b. induction s as [|a s IH]; intros b; simpl; [split; reflexivity|].
  destruct (is_hyphen a) eqn:Ha.
  - destruct (IH true) as [Hn Hf]. split; [|exact Hf].
    destruct b; simpl; [exact Hn|]. rewrite append_nil_l, Hf, Hn.
    reflexivity.
  - simpl. rewrite Ha. simpl. split; [|reflexivity]. apply (IH false).
Qed.

(** *** [Trim] *)

Lemma all_bytes_trimLeftByte P s c :
  all_bytes P s = true -> all_bytes P (trimLeftByte s c) = true.
Proof.
  induction s as [|a s IH]; simpl; [reflexivity|].
  intros H. destruct (Ascii.eqb a c); [|exact H].
  apply andb_true_iff in H as [_ H]. apply IH, H.
Qed.

Lemma no_adjacent_trimLeftByte P s c :
  no_adjacent P s = true -> no_adjacent P (trimLeftByte s c) = true.
Proof.
  induction s as [|a s IH]; simpl; [reflexivity|].
  intros H. destruct (Ascii.eqb a c); [|exact H].
  apply andb_true_iff in H as [_ H]. apply IH, H.
Qed.

Lemma first_is_trimLeftByte s c :
  first_is (fun a => Ascii.eqb a c) (trimLeftByte s c) = false.
Proof.
  induction s as [|a s IH]; simpl; [reflexivity|].
  destruct (Ascii.eqb a c) eqn:E; [exact IH|]. simpl. exact E.
Qed.

Lemma last_is_trimLeftByte P s c :
  last_is P s = false -> last_is P (trimLeftByte s c) = false.
Proof.
  induction s as [|a s IH]; simpl; [reflexivity|].
  intros H. destruct (Ascii.eqb a c); [|exact H].
  destruct s as [|a' s']; [reflexivity|]. apply IH, H.
Qed.

Lemma trimRightByte_cons a s c :
  trimRightByte (String a s) c =
  match trimRightByte s c with
  | EmptyString => if Ascii.eqb a c then EmptyString else String a EmptyString
  | t => String a t
  end.
Proof. reflexivity. Qed.

Lemma all_bytes_trimRightByte P s c :
  all_bytes P s = true -> all_bytes P (trimRightByte s c) = true.
Proof.
  induction s as [|a s IH]; [reflexivity|].
  rewrite trimRightByte_cons. cbn [all_bytes].
  intros [Ha Hs]%andb_true_iff. specialize (IH Hs).
  destruct (trimRightByte s c) as [|a' t].
  - destruct (Ascii.eqb a c); simpl; [reflexivity|]. rewrite Ha. reflexivity.
  - cbn [all_bytes]. rewrite Ha. exact IH.
Qed.

Lemma first_is_trimRightByte P s c :
  first_is P s = false -> first_is P (trimRightByte s c) = false.
Proof.
  destruct s as [|a s]; [reflexivity|].
  rewrite trimRightByte_cons. simpl. intros Ha.
  destruct (trimRightByte s c); [destruct (Ascii.eqb a c)|]; simpl; auto.
Qed.

Lemma no_adjacent_cons (P : ascii -> bool) a s :
  no_adjacent P (String a s) = negb (P a && first_is P s) && no_adjacent P s.
Proof. reflexivity. Qed.

Lemma no_adjacent_trimRightByte P s c :
  no_adjacent P s = true -> no_adjacent P (trimRightByte s c) = true.
Proof.
  induction s as [|a s IH]; [reflexivity|].
  rewrite trimRightByte_cons, no_adjacent_cons.
  intros [Ha Hs]%andb_true_iff. specialize (IH Hs).
  destruct (trimRightByte s c) as [|a' t] eqn:Et.
  - destruct (Ascii.eqb a c); [reflexivity|].
    rewrite no_adjacent_cons. simpl. rewrite andb_false_r. reflexivity.
  - rewrite no_adjacent_cons, IH, andb_true_r.
    destruct (P a); [|reflexivity]. simpl in Ha |- *.
    destruct (first_is P s) eqn:Ef; [discriminate|].
    pose proof (first_is_trimRightByte P s c Ef) as Hf.
    rewrite Et in Hf. simpl in Hf. rewrite Hf. reflexivity.
Qed.

Lemma last_is_trimRightByte s c :
  last_is (fun a => Ascii.eqb a c) (trimRightByte s c) = false.
Proof.
  induction s as [|a s IH]; [reflexivity|].
  rewrite trimRightByte_cons.
  destruct (trimRightByte s c) as [|a' t].
  - destruct (Ascii.eqb a c) eqn:E; simpl; [reflexivity|exact E].
  - exact IH.
Qed.

(** *** [ToLower] *)

Lemma all_bytes_ToLower s :
  all_bytes slug_class s = true -> all_bytes slug_byte (ToLower s) = true.
Proof.
  induction s as [|a s IH]; simpl; [reflexivity|].
  intros [Ha Hs]%andb_true_iff.
  rewrite (slug_class_lower_byte _ Ha), (IH Hs). reflexivity.
Qed.

Lemma first_is_ToLower s :
  first_is is_hyphen (ToLower s) = first_is is_hyphen s.
Proof. destruct s; simpl; [reflexivity|apply is_hyphen_lower_byte]. Qed.

Lemma last_is_ToLower s :
  last_is is_hyphen (ToLower s) = last_is is_hyphen s.
Proof.
  induction s as [|a s IH]; [reflexivity|].
  destruct s as [|a' s']; simpl; [apply is_hyphen_lower_byte|exact IH].
Qed.

Lemma no_adjacent_ToLower s :
  no_adjacent is_hyphen (ToLower s) = no_adjacent is_hyphen s.
Proof.
  induction s as [|a s IH]; simpl; [reflexivity|].
  rewrite IH, is_hyphen_lower_byte, first_is_ToLower. reflexivity.
Qed.

(** *** From the boolean predicates to shapes of strings *)

Lemma first_is_not_prefix (P : ascii -> bool) s a t :
  first_is P s = false -> P a = true -> s <> String a t.
Proof. intros Hf Ha ->. simpl in Hf. congruence. Qed.

Lemma last_is_app_single (P : ascii -> bool) t a :
  last_is P (t +:+ String a EmptyString) = P a.
Proof.
  induction t as [|b t IH]; simpl; [reflexivity|].
  destruct (t +:+ String a "") eqn:E; [|exact IH].
  destruct t; discriminate.
Qed.

Lemma no_adjacent_app_pair (P : ascii -> bool) u a b v :
  P a = true -> P b = true ->
  no_adjacent P (u +:+ String a (String b v)) = false.
Proof.
  intros Ha Hb. induction u as [|c u IH]; simpl.
  - rewrite Ha, Hb. reflexivity.
  - rewrite IH. apply andb_false_r.
Qed.

End GoStringFacts.

(** ** The shape of a slug *)

Section SlugShape.
Import GoString.

Lemma all_bytes_total (P : ascii -> bool) s :
  (forall c, P c = true) -> all_bytes P s = true.
Proof.
  intros HP. induction s as [|a s IH]; simpl; [reflexivity|].
  rewrite HP, IH. reflexivity.
Qed.

(** After the two regular expressions every byte is in [a-zA-Z0-9-_]. *)
Lemma slug_class_after_regexps s :
  all_bytes slug_class
    (ReplaceAllString is_hyphen
       (ReplaceAllString (fun c => negb (slug_class c)) s "-") "-") = true.
Proof.
  unfold ReplaceAllString.
  apply all_bytes_replaceRuns; [reflexivity|].
  apply (all_bytes_impl slug_class);
    [intros c Hc; rewrite Hc; apply orb_true_r|].
  apply all_bytes_replaceRuns; [reflexivity|].
  apply all_bytes_total. intros c. destruct (slug_class c); reflexivity.
Qed.

(** [strings.ToLower] is only applied to ASCII input, where it is the
    byte-wise mapping of [GoString.ToLower]. *)
Lemma slugify_ToLower_input_ascii path :
  all_bytes is_ascii
    (Trim (ReplaceAllString is_hyphen
             (ReplaceAllString (fun c => negb (slug_class c))
                (ReplaceAll path "/" "-") "-") "-") "-") = true.
Proof.
  apply (all_bytes_impl slug_class); [apply slug_class_is_ascii|].
  unfold Trim. apply all_bytes_trimLeftByte, all_bytes_trimRightByte.
  apply slug_class_after_regexps.
Qed.

Lemma slugify_steps_shape path :
  all_bytes slug_byte (slugify_steps path) = true /\
  first_is is_hyphen (slugify_steps path) = false /\
  last_is is_hyphen (slugify_steps path) = false /\
  no_adjacent is_hyphen (slugify_steps path) = true.
Proof.
  unfold slugify_steps, Trim.
  rewrite first_is_ToLower, last_is_ToLower, no_adjacent_ToLower.
  repeat split.
  - apply all_bytes_ToLower, all_bytes_trimLeftByte, all_bytes_trimRightByte.
    apply slug_class_after_regexps.
  - exact (first_is_trimLeftByte _ "-").
  - apply last_is_trimLeftByte. exact (last_is_trimRightByte _ "-").
  - apply no_adjacent_trimLeftByte, no_adjacent_trimRightByte.
    unfold ReplaceAllString. apply (replaceRuns_hyphen_shape false).
Qed.

Lemma slugify_shape path :
  all_bytes slug_byte (slugify path) = true /\
  first_is is_hyphen (slugify path) = false /\
  last_is is_hyphen (slugify path) = false /\
  no_adjacent is_hyphen (slugify path) = true.
Proof.
  unfold slugify. destruct (String.eqb (Trim path "/") "").
  - vm_compute. repeat split; reflexivity.
  - apply slugify_steps_shape.
Qed.

End SlugShape.

(** C5: for every path, the slug holds only lower-case letters, digits, '-'
    and '_', starts with no '-', ends with no '-', and holds no "--". *)
Theorem slugify_wellformed (p : string) :
  (forall c, In c (list_ascii_of_string (slugify p)) -> slug_byte c = true) /\
  (forall t, slugify p <> "-" +:+ t) /\
  (forall t, slugify p <> t +:+ "-") /\
  (forall u v, slugify p <> u +:+ "--" +:+ v).
Proof.
  destruct (slugify_shape p) as (Hall & Hfirst & Hlast & Hadj).
  repeat split.
  - apply all_bytes_In, Hall.
  - intros t. apply (first_is_not_prefix GoString.is_hyphen); [exact Hfirst|reflexivity].
  - intros t Heq. rewrite Heq, last_is_app_single in Hlast. discriminate Hlast.
  - intros u v Heq. rewrite Heq in Hadj.
    change ("--" +:+ v) with (String "-" (String "-" v)) in Hadj.
    rewrite no_adjacent_app_pair in Hadj by reflexivity. discriminate Hadj.
Qed.

(** C10: the non-empty path "/!!!/" is not empty after its slashes are
    stripped, yet its slug is the empty string and its key is
    "webhook--<unix-seconds>"; "root" is what [slugify] returns when the path
    is empty after stripping, and otherwise the result is that of the
    replacement pipeline, with no substitution for an empty outcome. *)
Theorem slugify_empty_slug_degenerate_key :
  GoString.Trim "/!!!/" "/" = "!!!" /\
  slugify "/!!!/" = "" /\
  (forall unixTime,
      Sprintf_key (slugify "/!!!/") unixTime = "webhook--" +:+ fmt_d unixTime) /\
  (forall p, GoString.Trim p "/" = "" -> slugify p = "root") /\
  (forall p, GoString.Trim p "/" <> "" ->
             slugify p = slugify_steps (GoString.Trim p "/")).
Proof.
  split; [reflexivity|]. split; [reflexivity|]. split; [reflexivity|]. split.
  - intros p Hp. unfold slugify. rewrite Hp. reflexivity.
  - intros p Hp. unfold slugify.
    destruct (String.eqb_spec (GoString.Trim p "/") ""); [contradiction|reflexivity].
Qed.


(* ===================================================================== *)
(** * Part 7. Properties of the storage backends                         *)
(* ===================================================================== *)

Section StorageFacts.

(** What each backend's [Store] returns and leaves behind. *)
Lemma RedisStorage_Store_eq key path body w :
  RedisStorage_Store key path body w =
  match fault w OpRedisSet with
  | Some e => (Some e, set_calls (fun l => l ++ [CallRedisSet key body]) w)
  | None => (None, set_redis_db (fun db => <[key := body]> db)
                     (set_calls (fun l => l ++ [CallRedisSet key body]) w))
  end.
Proof.
  unfold RedisStorage_Store, redis_Set, bind, record_call. simpl.
  destruct (fault w OpRedisSet); reflexivity.
Qed.

Lemma MongoDBStorage_Store_eq key path body w :
  let event := mkEvent key path body (clock w (clock_reads w)) in
  let w1 := set_calls (fun l => l ++ [CallMongoInsertOne event])
                      (set_clock_reads S w) in
  MongoDBStorage_Store key path body w =
  match fault w OpMongoInsertOne with
  | Some e => (Some ("failed to insert event to MongoDB: " +:+ e), w1)
  | None => (None, set_mongo_coll (fun c => c ++ [Bson.Marshal event]) w1)
  end.
Proof.
  unfold MongoDBStorage_Store, mongo_InsertOne, time_Now, bind, record_call, ret.
  simpl. destruct (fault w OpMongoInsertOne); reflexivity.
Qed.

(** The datetime kept for a reading of the clock is the millisecond the
    reading lies in. *)
Lemma int64_small z : - 2 ^ 63 <= z < 2 ^ 63 -> int64 z = z.
Proof. intros Hz. unfold int64. rewrite Z.mod_small; lia. Qed.

Lemma NewDateTimeFromTime_millis (t : Time) :
  0 <= nsec t < 1000000000 ->
  - 2 ^ 53 <= Unix t <= 2 ^ 53 ->
  Bson.NewDateTimeFromTime t = Unix t * 1000 + nsec t / 1000000 /\
  Bson.NewDateTimeFromTime t * 1000000
    <= Unix t * 1000000000 + nsec t
    < (Bson.NewDateTimeFromTime t + 1) * 1000000.
Proof.
  intros Hn Hs. unfold Bson.NewDateTimeFromTime.
  rewrite Z.quot_div_nonneg by lia.
  assert (Hq : 0 <= nsec t / 1000000 < 1000).
  { split; [apply Z.div_pos; lia|apply Z.div_lt_upper_bound; lia]. }
  assert (H53 : 2 ^ 53 = 9007199254740992) by reflexivity.
  assert (H63 : 2 ^ 63 = 9223372036854775808) by reflexivity.
  rewrite (int64_small (Unix t * 1000)) by lia.
  rewrite int64_small by lia.
  split; [reflexivity|].
  pose proof (Z.div_mod (nsec t) 1000000 ltac:(lia)) as Hdm.
  pose proof (Z.mod_pos_bound (nsec t) 1000000 ltac:(lia)) as Hm.
  lia.
Qed.

Lemma DualStorage_Store_eq key path body w :
  DualStorage_Store key path body w =
  match RedisStorage_Store key path body w with
  | (Some e, w1) => (Some e, w1)
  | (None, w1) =>
      match MongoDBStorage_Store key path body w1 with
      | (Some e, w2) =>
          (None, set_log (fun l => l ++ ["Warning: Failed to store in MongoDB: " +:+ e]) w2)
      | (None, w2) => (None, w2)
      end
  end.
Proof.
  unfold DualStorage_Store, bind, ret, log_Printf.
  destruct (RedisStorage_Store key path body w) as [[e|] w1]; [reflexivity|].
  destruct (MongoDBStorage_Store key path body w1) as [[e|] w2]; reflexivity.
Qed.

End StorageFacts.

(** C7: [Close] of the composite backend asks both connections to close,
    once each and the secondary also after a failure of the primary; it
    returns an error exactly when one of the two failed, and the primary's
    error when both did. *)
Theorem DualStorage_Close_closes_both (w : World) :
  calls (snd (DualStorage_Close w)) = calls w ++ [CallRedisClose; CallMongoDisconnect] /\
  fst (DualStorage_Close w) =
    match fault w OpRedisClose with
    | Some e => Some e
    | None => fault w OpMongoDisconnect
    end /\
  (fst (DualStorage_Close w) = None <->
   fault w OpRedisClose = None /\ fault w OpMongoDisconnect = None) /\
  redis_db (snd (DualStorage_Close w)) = redis_db w /\
  mongo_coll (snd (DualStorage_Close w)) = mongo_coll w.
Proof.
  unfold DualStorage_Close, RedisStorage_Close, MongoDBStorage_Close,
    redis_Close, mongo_Disconnect, bind, ret, record_call, log_Printf.
  simpl.
  destruct (fault w OpRedisClose) as [e1|] eqn:H1; simpl;
    destruct (fault w OpMongoDisconnect) as [e2|] eqn:H2; simpl;
    rewrite <- app_assoc; simpl; repeat split; try reflexivity;
    try discriminate; intros [? ?]; discriminate.
Qed.

(** C1 (storage part) and the facts it rests on are in Part 8, with the
    handler. *)

(* ===================================================================== *)
(** * Part 8. Properties of the ingestion handler                        *)
(* ===================================================================== *)

Ltac world_eq w :=
  destruct w; unfold set_log, set_calls, set_goroutines, set_redis_db,
    set_mongo_coll, set_clock_reads; simpl;
  rewrite <- ?app_assoc, ?app_nil_r; reflexivity.

Lemma set_log_nil w : set_log (fun l => l ++ []) w = w.
Proof. world_eq w. Qed.

Lemma set_log_app a b w :
  set_log (fun l => l ++ b) (set_log (fun l => l ++ a) w) =
  set_log (fun l => l ++ (a ++ b)) w.
Proof. world_eq w. Qed.

Lemma log_lines_eq lines w :
  log_lines lines w = (tt, set_log (fun l => l ++ lines) w).
Proof.
  revert w. induction lines as [|line rest IH]; intros w; simpl.
  - unfold ret. rewrite set_log_nil. reflexivity.
  - unfold bind, log_Printf. rewrite IH, set_log_app. reflexivity.
Qed.

Lemma forwardToTargets_eq targets body headers w :
  forwardToTargets targets body headers w =
  (tt, set_goroutines
         (fun l => l ++ map (fun t => mkGoroutine t body headers) targets) w).
Proof.
  revert w. induction targets as [|t rest IH]; intros w; simpl.
  - unfold ret. f_equal. world_eq w.
  - unfold bind, go. rewrite IH. f_equal. world_eq w.
Qed.

Lemma forward_if_any_eq targets body headers w :
  (if (0 <? length targets)%nat
   then forwardToTargets targets body headers else ret tt) w =
  (tt, set_goroutines
         (fun l => l ++ map (fun t => mkGoroutine t body headers) targets) w).
Proof.
  destruct targets as [|t ts].
  - simpl. unfold ret. f_equal. world_eq w.
  - change (0 <? length (t :: ts))%nat with true. cbv iota.
    apply forwardToTargets_eq.
Qed.

Section HandlerFacts.

Variable json_Unmarshal : string -> option error.
Variable url_Parse : string -> option error.
Variable homepage_html : string.
Variable enableLogging : bool.

Lemma log_request_eq r body w :
  exists lines,
    log_request enableLogging r body w = (tt, set_log (fun l => l ++ lines) w).
Proof.
  unfold log_request. destruct enableLogging.
  - eexists. apply log_lines_eq.
  - exists []. unfold ret. rewrite set_log_nil. reflexivity.
Qed.

Lemma at_store_fields r w :
  redis_db (at_store enableLogging r w) = redis_db w /\
  mongo_coll (at_store enableLogging r w) = mongo_coll w /\
  fault (at_store enableLogging r w) = fault w /\
  calls (at_store enableLogging r w) = calls w /\
  goroutines (at_store enableLogging r w) = goroutines w /\
  clock (at_store enableLogging r w) = clock w /\
  clock_reads (at_store enableLogging r w) = S (clock_reads w).
Proof.
  unfold at_store.
  destruct (log_request_eq r (fst (ReadAll_Body r)) w) as [lines ->].
  repeat split.
Qed.

(** The three outcomes of [handleWebhook]. *)
Lemma handleWebhook_bad_request r store config w :
  (snd (ReadAll_Body r) <> None \/
   json_Unmarshal (fst (ReadAll_Body r)) <> None) ->
  exists msg lines,
    handleWebhook json_Unmarshal enableLogging r store config w =
    (http_Error msg StatusBadRequest, set_log (fun l => l ++ lines) w).
Proof.
  intros Hbad. unfold handleWebhook.
  destruct (ReadAll_Body r) as [body [e|]] eqn:Hread; simpl in *.
  - unfold bind, log_Printf, ret. eauto.
  - destruct Hbad as [Hbad|Hbad]; [contradiction|].
    unfold bind at 1. destruct (log_request_eq r body w) as [lines ->].
    destruct (json_Unmarshal body) as [e|]; [|contradiction].
    unfold bind, log_Printf, ret. rewrite set_log_app. eauto.
Qed.

Lemma handleWebhook_store r store config w body :
  ReadAll_Body r = (body, None) -> json_Unmarshal body = None ->
  handleWebhook json_Unmarshal enableLogging r store config w =
  match Store store (request_key r w) (URL_Path r) body (at_store enableLogging r w) with
  | (Some e, w2) =>
      (http_Error "Failed to store webhook" StatusInternalServerError,
       set_log (fun l => l ++ ["Failed to store webhook: " +:+ e]) w2)
  | (None, w2) =>
      (mkResponse StatusOK ∅
         ("Webhook received and stored: " +:+ request_key r w +:+ newline),
       set_goroutines
         (fun l => l ++ map (fun t => mkGoroutine t body (Header r))
                            (findTargets (URL_Path r) config))
         (set_log (fun l => l ++ ["Stored webhook: " +:+ request_key r w
                                  +:+ " (path: " +:+ URL_Path r +:+ ", size: "
                                  +:+ fmt_d (Z.of_nat (String.length body))
                                  +:+ " bytes)"]) w2))
  end.
Proof.
  intros Hread Hjson. unfold handleWebhook, at_store, request_key.
  rewrite Hread. simpl fst. unfold bind at 1.
  destruct (log_request_eq r body w) as [lines ->]. rewrite Hjson.
  unfold bind at 1, time_Now at 1. simpl.
  unfold bind at 1.
  destruct (Store store _ _ _ _) as [[e|] w2]; [reflexivity|].
  unfold bind, log_Printf, ret. rewrite forward_if_any_eq. reflexivity.
Qed.

End HandlerFacts.

(** ** DispatchTable *)

(** C6: [findTargets] returns the targets of the first rule, in the order of
    the configuration, whose path equals the inbound path, and the empty
    sequence when no rule has that path; a rule whose path differs in any way
    is passed over. *)
Theorem findTargets_first_exact_match (path : string) (config : Config) :
  (exists before rule after,
      Dispatch config = before ++ rule :: after /\
      Forall (fun r => Rule_Path r <> path) before /\
      Rule_Path rule = path /\
      findTargets path config = Rule_Targets rule)
  \/ (Forall (fun r => Rule_Path r <> path) (Dispatch config) /\
      findTargets path config = []).
Proof.
  unfold findTargets. induction (Dispatch config) as [|rule rest IH]; simpl.
  - right. split; [constructor|reflexivity].
  - destruct (String.eqb_spec (Rule_Path rule) path) as [Heq|Hne].
    + left. exists [], rule, rest. repeat split; [constructor|exact Heq].
    + destruct IH as [(before & r' & after & Hsplit & Hbefore & Hr' & Hres)|[Hall Hres]].
      * left. exists (rule :: before), r', after. rewrite <- Hres, Hsplit.
        repeat split; [constructor; assumption|exact Hr'].
      * right. split; [constructor; assumption|exact Hres].
Qed.

Section HandlerRdbFacts.

Variable json_Unmarshal : string -> option error.
Variable enableLogging : bool.

Lemma handleWebhook_rdb_bad_request r config w :
  (snd (ReadAll_Body r) <> None \/
   json_Unmarshal (fst (ReadAll_Body r)) <> None) ->
  exists msg lines,
    handleWebhook_rdb json_Unmarshal enableLogging r config w =
    (http_Error msg StatusBadRequest, set_log (fun l => l ++ lines) w).
Proof.
  intros Hbad. unfold handleWebhook_rdb.
  destruct (ReadAll_Body r) as [body [e|]] eqn:Hread; simpl in *.
  - unfold bind, log_Printf, ret. eauto.
  - destruct Hbad as [Hbad|Hbad]; [contradiction|].
    unfold bind at 1.
    destruct (log_request_eq enableLogging r body w) as [lines ->].
    destruct (json_Unmarshal body) as [e|]; [|contradiction].
    unfold bind, log_Printf, ret. rewrite set_log_app. eauto.
Qed.

Lemma handleWebhook_rdb_store r config w body :
  ReadAll_Body r = (body, None) -> json_Unmarshal body = None ->
  handleWebhook_rdb json_Unmarshal enableLogging r config w =
  match redis_Set (request_key r w) body (at_store enableLogging r w) with
  | (Some e, w2) =>
      (http_Error "Failed to store webhook" StatusInternalServerError,
       set_log (fun l => l ++ ["Failed to store in Redis: " +:+ e]) w2)
  | (None, w2) =>
      (mkResponse StatusOK ∅
         ("Webhook received and stored: " +:+ request_key r w +:+ newline),
       set_goroutines
         (fun l => l ++ map (fun t => mkGoroutine t body (Header r))
                            (findTargets (URL_Path r) config))
         (set_log (fun l => l ++ ["Stored webhook: " +:+ request_key r w
                                  +:+ " (path: " +:+ URL_Path r +:+ ", size: "
                                  +:+ fmt_d (Z.of_nat (String.length body))
                                  +:+ " bytes)"]) w2))
  end.
Proof.
  intros Hread Hjson. unfold handleWebhook_rdb, at_store, request_key.
  rewrite Hread. simpl fst. unfold bind at 1.
  destruct (log_request_eq enableLogging r body w) as [lines ->]. rewrite Hjson.
  unfold bind at 1, time_Now at 1. simpl.
  unfold bind at 1.
  destruct (redis_Set _ _ _) as [[e|] w2]; [reflexivity|].
  unfold bind, log_Printf, ret. rewrite forward_if_any_eq. reflexivity.
Qed.

End HandlerRdbFacts.

Lemma RedisStorage_Count_eq w :
  RedisStorage_Count w =
  match fault w OpRedisKeys with
  | Some e => ((0, Some ("failed to count keys: " +:+ e)),
               set_calls (fun l => l ++ [CallRedisKeys "webhook-*"]) w)
  | None => ((Z.of_nat (length (List.filter (glob_prefix_match "webhook-")
                                  (map fst (map_to_list (redis_db w))))), None),
             set_calls (fun l => l ++ [CallRedisKeys "webhook-*"]) w)
  end.
Proof.
  unfold RedisStorage_Count, redis_Keys_prefix, bind, record_call, ret. simpl.
  destruct (fault w OpRedisKeys); reflexivity.
Qed.

Section Ingestion.

Variable json_Unmarshal : string -> option error.
Variable enableLogging : bool.

(** C3: a request whose body is not well-formed JSON is answered with 400
    by both versions of the handler, and nothing but the log changes: no
    call reaches a backend, the stores and the count of events are as
    before, and no forwarding goroutine is started. *)
Theorem handleWebhook_invalid_json_no_effects
        (r : Request) (store : Storage) (config : Config) (w : World) (e : error) :
  json_Unmarshal (fst (ReadAll_Body r)) = Some e ->
  let out := handleWebhook json_Unmarshal enableLogging r store config w in
  let out_rdb := handleWebhook_rdb json_Unmarshal enableLogging r config w in
  resp_status (fst out) = 400 /\
  (exists lines, snd out = set_log (fun l => l ++ lines) w) /\
  calls (snd out) = calls w /\
  redis_db (snd out) = redis_db w /\
  mongo_coll (snd out) = mongo_coll w /\
  goroutines (snd out) = goroutines w /\
  fst (RedisStorage_Count (snd out)) = fst (RedisStorage_Count w) /\
  resp_status (fst out_rdb) = 400 /\
  (exists lines, snd out_rdb = set_log (fun l => l ++ lines) w) /\
  calls (snd out_rdb) = calls w /\
  redis_db (snd out_rdb) = redis_db w /\
  goroutines (snd out_rdb) = goroutines w /\
  fst (RedisStorage_Count (snd out_rdb)) = fst (RedisStorage_Count w).
Proof.
  intros Hjson out out_rdb.
  assert (Hbad : snd (ReadAll_Body r) <> None \/
                 json_Unmarshal (fst (ReadAll_Body r)) <> None)
    by (right; rewrite Hjson; discriminate).
  destruct (handleWebhook_bad_request json_Unmarshal enableLogging r store config w Hbad)
    as (msg & lines & Hout).
  destruct (handleWebhook_rdb_bad_request json_Unmarshal enableLogging r config w Hbad)
    as (msg' & lines' & Hout').
  subst out out_rdb. rewrite Hout, Hout'. simpl.
  rewrite !RedisStorage_Count_eq. simpl.
  repeat split; eauto; destruct (fault w OpRedisKeys); reflexivity.
Qed.

(** C4: when the body is valid JSON and [Store] succeeds, the response is
    200 and confirms the key "webhook-" + slug(path) + "-" + unix seconds of
    the clock reading the handler took, and that key, with the inbound path
    and the body, is what [Store] was called with; with the Redis backend,
    and in the version that writes to Redis itself, the body is then found
    under that key. *)
Theorem handleWebhook_accepted_key
        (r : Request) (store : Storage) (config : Config) (w : World) (body : string) :
  ReadAll_Body r = (body, None) ->
  json_Unmarshal body = None ->
  fst (Store store (request_key r w) (URL_Path r) body (at_store enableLogging r w)) = None ->
  let key := "webhook-" +:+ slugify (URL_Path r) +:+ "-"
             +:+ fmt_d (Unix (clock w (clock_reads w))) in
  let out := handleWebhook json_Unmarshal enableLogging r store config w in
  resp_status (fst out) = 200 /\
  resp_body (fst out) = "Webhook received and stored: " +:+ key +:+ newline /\
  (exists lines spawned,
      snd out = set_goroutines (fun l => l ++ spawned)
                  (set_log (fun l => l ++ lines)
                     (snd (Store store key (URL_Path r) body
                                 (at_store enableLogging r w))))) /\
  (fault w OpRedisSet = None ->
   redis_db (snd (handleWebhook json_Unmarshal enableLogging r RedisStorage config w))
     !! key = Some body /\
   resp_body (fst (handleWebhook_rdb json_Unmarshal enableLogging r config w)) =
     "Webhook received and stored: " +:+ key +:+ newline /\
   redis_db (snd (handleWebhook_rdb json_Unmarshal enableLogging r config w))
     !! key = Some body).
Proof.
  intros Hread Hjson Hstore key out. subst out.
  change key with (request_key r w).
  destruct (at_store_fields enableLogging r w) as (_ & _ & Hfault & _).
  rewrite (handleWebhook_store json_Unmarshal enableLogging r store config w body Hread Hjson).
  destruct (Store store _ _ _ _) as [[e|] w2] eqn:Hs; [discriminate Hstore|].
  simpl. split; [reflexivity|]. split; [reflexivity|]. split; [eauto|].
  intros Hok.
  rewrite (handleWebhook_store json_Unmarshal enableLogging r RedisStorage config w body Hread Hjson).
  rewrite (handleWebhook_rdb_store json_Unmarshal enableLogging r config w body Hread Hjson).
  change (redis_Set (request_key r w) body)
    with (RedisStorage_Store (request_key r w) (URL_Path r) body).
  simpl Store. rewrite RedisStorage_Store_eq, Hfault, Hok. simpl.
  repeat split; apply lookup_insert_eq.
Qed.

End Ingestion.

Section Composite.

Variable json_Unmarshal : string -> option error.
Variable enableLogging : bool.

(** C1: when the primary [Store] fails, [Store] of the composite backend
    returns that error and the only call made is the Redis write: the
    secondary's insert is not invoked and the collection is as before; the
    handler answers 500 and starts no forwarding goroutine. *)
Theorem dual_primary_failure_is_fatal
        (r : Request) (config : Config) (w : World) (body : string) (e : error) :
  ReadAll_Body r = (body, None) ->
  json_Unmarshal body = None ->
  fst (RedisStorage_Store (request_key r w) (URL_Path r) body
                          (at_store enableLogging r w)) = Some e ->
  let key := request_key r w in
  let stored := DualStorage_Store key (URL_Path r) body (at_store enableLogging r w) in
  let out := handleWebhook json_Unmarshal enableLogging r DualStorage config w in
  fst stored = Some e /\
  calls (snd stored) = calls w ++ [CallRedisSet key body] /\
  mongo_coll (snd stored) = mongo_coll w /\
  redis_db (snd stored) = redis_db w /\
  resp_status (fst out) = 500 /\
  calls (snd out) = calls w ++ [CallRedisSet key body] /\
  mongo_coll (snd out) = mongo_coll w /\
  goroutines (snd out) = goroutines w.
Proof.
  intros Hread Hjson Hfail key stored out. subst key stored out.
  rewrite (handleWebhook_store json_Unmarshal enableLogging r DualStorage config w body Hread Hjson).
  simpl Store. rewrite DualStorage_Store_eq.
  destruct (at_store_fields enableLogging r w) as (Hdb & Hcoll & _ & Hcalls & Hgo & _).
  rewrite RedisStorage_Store_eq in Hfail |- *.
  remember (at_store enableLogging r w) as ws eqn:Hws. clear Hws.
  destruct (fault ws OpRedisSet) as [e'|]; [|discriminate Hfail].
  simpl in Hfail |- *. rewrite Hdb, Hcoll, Hcalls, Hgo.
  repeat split; assumption.
Qed.

(** C2: when the primary [Store] succeeds and the secondary [Store] fails,
    [Store] of the composite backend returns no error, the failure is only
    logged, the body is in Redis under the key, and the handler answers
    200. *)
Theorem dual_secondary_failure_is_swallowed
        (r : Request) (config : Config) (w : World) (body : string) (e : error) :
  ReadAll_Body r = (body, None) ->
  json_Unmarshal body = None ->
  let key := request_key r w in
  let primary := RedisStorage_Store key (URL_Path r) body (at_store enableLogging r w) in
  fst primary = None ->
  fst (MongoDBStorage_Store key (URL_Path r) body (snd primary)) = Some e ->
  let stored := DualStorage_Store key (URL_Path r) body (at_store enableLogging r w) in
  let out := handleWebhook json_Unmarshal enableLogging r DualStorage config w in
  fst stored = None /\
  In ("Warning: Failed to store in MongoDB: " +:+ e) (log (snd stored)) /\
  redis_db (snd stored) !! key = Some body /\
  mongo_coll (snd stored) = mongo_coll w /\
  resp_status (fst out) = 200 /\
  resp_body (fst out) = "Webhook received and stored: " +:+ key +:+ newline.
Proof.
  intros Hread Hjson key primary Hok Hfail stored out. subst key primary stored out.
  rewrite (handleWebhook_store json_Unmarshal enableLogging r DualStorage config w body Hread Hjson).
  simpl Store. rewrite DualStorage_Store_eq.
  destruct (at_store_fields enableLogging r w) as (Hdb & Hcoll & _).
  rewrite RedisStorage_Store_eq in Hok, Hfail |- *.
  remember (at_store enableLogging r w) as ws eqn:Hws. clear Hws.
  destruct (fault ws OpRedisSet); [discriminate Hok|].
  simpl in Hfail |- *.
  rewrite MongoDBStorage_Store_eq in Hfail |- *. cbv zeta in Hfail |- *.
  simpl in Hfail |- *.
  destruct (fault ws OpMongoInsertOne) as [e2|]; [|discriminate Hfail].
  simpl in Hfail. injection Hfail as <-. simpl.
  rewrite Hcoll. repeat split.
  - apply in_or_app. right. left. reflexivity.
  - apply lookup_insert_eq.
Qed.

End Composite.

(** ** The persisted record *)

(** C8, as stated, fails for the primary store: no reading of the Redis
    keyspace can give back the path of an event, since two events that
    differ only in their path leave the same keyspace.  "/a/b" and "/a-b"
    have the same slug, hence the same key within one second. *)
Lemma redis_record_has_no_path :
  slugify "/a/b" = slugify "/a-b" /\
  redis_db (snd (RedisStorage_Store "webhook-a-b-1700000000" "/a/b" "{}" world0)) =
  redis_db (snd (RedisStorage_Store "webhook-a-b-1700000000" "/a-b" "{}" world0)) /\
  redis_db (snd (RedisStorage_Store "webhook-a-b-1700000000" "/a/b" "{}" world0))
    !! "webhook-a-b-1700000000" = Some "{}" /\
  ~ (exists read : gmap string string -> string -> option Event,
        forall key path body w,
          fst (RedisStorage_Store key path body w) = None ->
          exists ev, read (redis_db (snd (RedisStorage_Store key path body w))) key
                     = Some ev /\ Path ev = path).
Proof.
  split; [reflexivity|]. split; [reflexivity|]. split; [reflexivity|].
  intros [read Hread].
  destruct (Hread "webhook-a-b-1700000000" "/a/b" "{}" world0 eq_refl)
    as (ev1 & H1 & P1).
  destruct (Hread "webhook-a-b-1700000000" "/a-b" "{}" world0 eq_refl)
    as (ev2 & H2 & P2).
  change (redis_db (snd (RedisStorage_Store "webhook-a-b-1700000000" "/a-b" "{}" world0)))
    with (redis_db (snd (RedisStorage_Store "webhook-a-b-1700000000" "/a/b" "{}" world0)))
    in H2.
  rewrite H1 in H2. injection H2 as <-. rewrite P1 in P2. discriminate P2.
Qed.

(** C8, amended: an event persisted in the secondary store is the record
    {key, path, body, timestamp} with the path [Store] was given, as it
    came, and a timestamp set at persistence time: the datetime of the
    reading of the clock that [Store] itself takes, which is the
    millisecond that reading lies in.  In the primary store the event is
    the body under the key, and nothing else. *)
Theorem persisted_record_per_backend (key path body : string) (w : World) :
  fst (RedisStorage_Store key path body w) = None ->
  fst (MongoDBStorage_Store key path body w) = None ->
  let now := clock w (clock_reads w) in
  let doc := Bson.mkDocument key path body (Bson.NewDateTimeFromTime now) in
  redis_db (snd (RedisStorage_Store key path body w)) = <[key := body]> (redis_db w) /\
  mongo_coll (snd (RedisStorage_Store key path body w)) = mongo_coll w /\
  mongo_coll (snd (MongoDBStorage_Store key path body w)) = mongo_coll w ++ [doc] /\
  redis_db (snd (MongoDBStorage_Store key path body w)) = redis_db w /\
  mongo_coll (snd (DualStorage_Store key path body w)) = mongo_coll w ++ [doc] /\
  redis_db (snd (DualStorage_Store key path body w)) = <[key := body]> (redis_db w) /\
  clock_reads (snd (MongoDBStorage_Store key path body w)) = S (clock_reads w) /\
  (0 <= nsec now < 1000000000 -> - 2 ^ 53 <= Unix now <= 2 ^ 53 ->
   Bson.timestamp doc * 1000000
     <= Unix now * 1000000000 + nsec now
     < (Bson.timestamp doc + 1) * 1000000).
Proof.
  intros Hr Hm now doc.
  rewrite RedisStorage_Store_eq in Hr. rewrite MongoDBStorage_Store_eq in Hm.
  cbv zeta in Hm.
  destruct (fault w OpRedisSet) eqn:Hfr; [discriminate Hr|]. clear Hr.
  destruct (fault w OpMongoInsertOne) eqn:Hfm; [discriminate Hm|]. clear Hm.
  assert (Hms : 0 <= nsec now < 1000000000 -> - 2 ^ 53 <= Unix now <= 2 ^ 53 ->
                Bson.timestamp doc * 1000000
                  <= Unix now * 1000000000 + nsec now
                  < (Bson.timestamp doc + 1) * 1000000).
  { intros Hn Hs. exact (proj2 (NewDateTimeFromTime_millis now Hn Hs)). }
  subst now doc.
  unfold DualStorage_Store, RedisStorage_Store, redis_Set, MongoDBStorage_Store,
    mongo_InsertOne, time_Now, bind, record_call, ret, log_Printf.
  simpl. rewrite Hfr. simpl. rewrite Hfm. simpl.
  split; [reflexivity|]. split; [reflexivity|]. split; [reflexivity|].
  split; [reflexivity|]. split; [reflexivity|]. split; [reflexivity|].
  split; [reflexivity|]. exact Hms.
Qed.

(** ** Forwarder *)

Section Forwarder.

Variable url_Parse : string -> option error.

(** C9: the fan-out starts one goroutine per target, each holding the
    target, the raw inbound body and the inbound headers; a goroutine whose
    request can be constructed hands the client one request, a POST to the
    target with that body and one header, Content-Type, which is the inbound
    Content-Type when that is not empty and "application/json" otherwise. *)
Theorem forward_request_shape
        (targets : list string) (body : string)
        (headers : gmap string (list string)) (w0 : World)
        (g : Goroutine) (w : World) :
  In g (goroutines (snd (forwardToTargets targets body headers w0))) ->
  ~ In g (goroutines w0) ->
  url_Parse (go_url g) = None ->
  let content_type :=
    if String.eqb (Header_Get headers "Content-Type") "" then "application/json"
    else Header_Get headers "Content-Type" in
  goroutines (snd (forwardToTargets targets body headers w0)) =
    goroutines w0 ++ map (fun t => mkGoroutine t body headers) targets /\
  In (go_url g) targets /\
  exists req,
    calls (snd (forward url_Parse g w)) = calls w ++ [CallHttpDo req] /\
    out_Method req = "POST" /\
    out_URL req = go_url g /\
    out_Body req = body /\
    out_Header req = {[ "Content-Type" := [content_type] ]} /\
    Header_Get (out_Header req) "Content-Type" = content_type.
Proof.
  intros Hin Hnew Hparse content_type.
  rewrite forwardToTargets_eq in Hin |- *. simpl in Hin |- *.
  split; [reflexivity|].
  apply in_app_or in Hin as [Hin|Hin]; [contradiction|].
  apply in_map_iff in Hin as (t & <- & Ht). simpl in Hparse |- *.
  split; [exact Ht|].
  unfold forward, http_NewRequest. simpl. rewrite Hparse.
  eexists. split.
  - unfold bind, client_Do, record_call, log_Printf. simpl.
    destruct (http_Do w _); reflexivity.
  - unfold outbound_request, Header_Set, Header_Get. simpl.
    rewrite lookup_insert_eq. subst content_type. unfold Header_Get.
    destruct (headers !! "Content-Type") as [[|v vs]|]; simpl.
    + rewrite insert_insert_eq, lookup_insert_eq.
      repeat split; apply insert_empty.
    + destruct (String.eqb v "") eqn:Hv.
      * rewrite insert_insert_eq, lookup_insert_eq.
        repeat split; apply insert_empty.
      * rewrite lookup_insert_eq. repeat split; apply insert_empty.
    + rewrite insert_insert_eq, lookup_insert_eq.
      repeat split; apply insert_empty.
Qed.

End Forwarder.

(** ** The properties above on concrete requests *)

Lemma handleWebhook_invalid_json_no_effects_witness :
  Json.Unmarshal (fst (ReadAll_Body sample_bad_request)) = Some "invalid character" /\
  resp_status (fst (handleWebhook Json.Unmarshal true sample_bad_request
                                  RedisStorage sample_config world0)) = 400 /\
  calls (snd (handleWebhook Json.Unmarshal true sample_bad_request
                            RedisStorage sample_config world0)) = calls world0.
Proof.
  assert (Hjson : Json.Unmarshal (fst (ReadAll_Body sample_bad_request))
                  = Some "invalid character") by (vm_compute; reflexivity).
  pose proof (handleWebhook_invalid_json_no_effects Json.Unmarshal true
                sample_bad_request RedisStorage sample_config world0 _ Hjson) as H.
  cbv zeta in H. destruct H as (H1 & _ & H3 & _).
  split; [exact Hjson|]. split; [exact H1|exact H3].
Defined.

Lemma handleWebhook_accepted_key_witness :
  ReadAll_Body sample_request = ("[1,2]", None) /\
  Json.Unmarshal "[1,2]" = None /\
  fst (Store RedisStorage (request_key sample_request world0)
             (URL_Path sample_request) "[1,2]"
             (at_store true sample_request world0)) = None /\
  resp_body (fst (handleWebhook Json.Unmarshal true sample_request
                                RedisStorage sample_config world0)) =
    "Webhook received and stored: webhook-hooks-a-1700000000" +:+ newline.
Proof.
  assert (H1 : ReadAll_Body sample_request = ("[1,2]", None)) by reflexivity.
  assert (H2 : Json.Unmarshal "[1,2]" = None) by (vm_compute; reflexivity).
  assert (H3 : fst (Store RedisStorage (request_key sample_request world0)
                          (URL_Path sample_request) "[1,2]"
                          (at_store true sample_request world0)) = None)
    by (vm_compute; reflexivity).
  pose proof (handleWebhook_accepted_key Json.Unmarshal true sample_request
                RedisStorage sample_config world0 "[1,2]" H1 H2 H3) as H.
  cbv zeta in H. destruct H as (_ & Hbody & _).
  split; [exact H1|]. split; [exact H2|]. split; [exact H3|].
  rewrite Hbody. vm_compute. reflexivity.
Defined.

Lemma dual_primary_failure_is_fatal_witness :
  ReadAll_Body sample_request = ("[1,2]", None) /\
  Json.Unmarshal "[1,2]" = None /\
  fst (RedisStorage_Store (request_key sample_request world_redis_down)
         (URL_Path sample_request) "[1,2]"
         (at_store true sample_request world_redis_down))
    = Some "dial tcp 127.0.0.1:6379: connection refused" /\
  resp_status (fst (handleWebhook Json.Unmarshal true sample_request
                                  DualStorage sample_config world_redis_down)) = 500 /\
  goroutines (snd (handleWebhook Json.Unmarshal true sample_request
                                 DualStorage sample_config world_redis_down)) = [].
Proof.
  assert (H1 : ReadAll_Body sample_request = ("[1,2]", None)) by reflexivity.
  assert (H2 : Json.Unmarshal "[1,2]" = None) by (vm_compute; reflexivity).
  assert (H3 : fst (RedisStorage_Store (request_key sample_request world_redis_down)
                      (URL_Path sample_request) "[1,2]"
                      (at_store true sample_request world_redis_down))
               = Some "dial tcp 127.0.0.1:6379: connection refused")
    by (vm_compute; reflexivity).
  pose proof (dual_primary_failure_is_fatal Json.Unmarshal true sample_request
                sample_config world_redis_down "[1,2]" _ H1 H2 H3) as H.
  cbv zeta in H. destruct H as (_ & _ & _ & _ & Hst & _ & _ & Hgo).
  repeat split; assumption.
Defined.

Lemma dual_secondary_failure_is_swallowed_witness :
  ReadAll_Body sample_request = ("[1,2]", None) /\
  Json.Unmarshal "[1,2]" = None /\
  fst (RedisStorage_Store (request_key sample_request world_mongo_down)
         (URL_Path sample_request) "[1,2]"
         (at_store true sample_request world_mongo_down)) = None /\
  fst (MongoDBStorage_Store (request_key sample_request world_mongo_down)
         (URL_Path sample_request) "[1,2]"
         (snd (RedisStorage_Store (request_key sample_request world_mongo_down)
                 (URL_Path sample_request) "[1,2]"
                 (at_store true sample_request world_mongo_down))))
    = Some "failed to insert event to MongoDB: server selection timeout" /\
  resp_status (fst (handleWebhook Json.Unmarshal true sample_request
                                  DualStorage sample_config world_mongo_down)) = 200.
Proof.
  assert (H1 : ReadAll_Body sample_request = ("[1,2]", None)) by reflexivity.
  assert (H2 : Json.Unmarshal "[1,2]" = None) by (vm_compute; reflexivity).
  assert (H3 : fst (RedisStorage_Store (request_key sample_request world_mongo_down)
                      (URL_Path sample_request) "[1,2]"
                      (at_store true sample_request world_mongo_down)) = None)
    by (vm_compute; reflexivity).
  assert (H4 : fst (MongoDBStorage_Store (request_key sample_request world_mongo_down)
                      (URL_Path sample_request) "[1,2]"
                      (snd (RedisStorage_Store (request_key sample_request world_mongo_down)
                              (URL_Path sample_request) "[1,2]"
                              (at_store true sample_request world_mongo_down))))
               = Some "failed to insert event to MongoDB: server selection timeout")
    by (vm_compute; reflexivity).
  pose proof (dual_secondary_failure_is_swallowed Json.Unmarshal true sample_request
                sample_config world_mongo_down "[1,2]" _ H1 H2 H3 H4) as H.
  cbv zeta in H. destruct H as (_ & _ & _ & _ & Hst & _).
  repeat split; assumption.
Defined.

Lemma persisted_record_per_backend_witness :
  fst (RedisStorage_Store "webhook-hooks-a-1700000000" "/hooks/a" "[1,2]" world_ns) = None /\
  fst (MongoDBStorage_Store "webhook-hooks-a-1700000000" "/hooks/a" "[1,2]" world_ns) = None /\
  clock world_ns 0 = mkTime 1700000000 123456789 /\
  mongo_coll (snd (DualStorage_Store "webhook-hooks-a-1700000000" "/hooks/a" "[1,2]" world_ns)) =
    [Bson.mkDocument "webhook-hooks-a-1700000000" "/hooks/a" "[1,2]" 1700000000123].
Proof.
  assert (H1 : fst (RedisStorage_Store "webhook-hooks-a-1700000000" "/hooks/a"
                      "[1,2]" world_ns) = None) by reflexivity.
  assert (H2 : fst (MongoDBStorage_Store "webhook-hooks-a-1700000000" "/hooks/a"
                      "[1,2]" world_ns) = None) by reflexivity.
  pose proof (persisted_record_per_backend "webhook-hooks-a-1700000000" "/hooks/a"
                "[1,2]" world_ns H1 H2) as H.
  cbv zeta in H. destruct H as (_ & _ & _ & _ & Hcoll & _).
  split; [exact H1|]. split; [exact H2|]. split; [reflexivity|].
  rewrite Hcoll. vm_compute. reflexivity.
Defined.

Lemma forward_request_shape_witness :
  In (mkGoroutine "http://a.example/in" "[1,2]" (Header sample_request))
     (goroutines (snd (forwardToTargets
                         (findTargets "/hooks/a" sample_config) "[1,2]"
                         (Header sample_request) world0))) /\
  ~ In (mkGoroutine "http://a.example/in" "[1,2]" (Header sample_request))
       (goroutines world0) /\
  Url.Parse "http://a.example/in" = None /\
  exists req,
    calls (snd (forward Url.Parse
                  (mkGoroutine "http://a.example/in" "[1,2]" (Header sample_request))
                  world0)) = [CallHttpDo req] /\
    out_Method req = "POST" /\
    out_Body req = "[1,2]" /\
    Header_Get (out_Header req) "Content-Type" = "text/plain".
Proof.
  assert (H1 : In (mkGoroutine "http://a.example/in" "[1,2]" (Header sample_request))
                  (goroutines (snd (forwardToTargets
                                      (findTargets "/hooks/a" sample_config) "[1,2]"
                                      (Header sample_request) world0))))
    by (left; reflexivity).
  assert (H2 : ~ In (mkGoroutine "http://a.example/in" "[1,2]" (Header sample_request))
                    (goroutines world0)) by (intros []).
  assert (H3 : Url.Parse "http://a.example/in" = None) by (vm_compute; reflexivity).
  pose proof (forward_request_shape Url.Parse
                (findTargets "/hooks/a" sample_config) "[1,2]"
                (Header sample_request) world0
                (mkGoroutine "http://a.example/in" "[1,2]" (Header sample_request))
                world0 H1 H2 H3) as H.
  cbv zeta in H. destruct H as (_ & _ & req & Hc & Hm & _ & Hb & _ & Hct).
  split; [exact H1|]. split; [exact H2|]. split; [exact H3|].
  exists req. split; [exact Hc|]. split; [exact Hm|]. split; [exact Hb|]. exact Hct.
Defined.

(* ===================================================================== *)
(** * Part 9. Further properties of the handlers                         *)
(* ===================================================================== *)

Section HandlerOutcomes.

Variable json_Unmarshal : string -> option error.
Variable enableLogging : bool.

Lemma handleWebhook_unreadable_eq r store config w body e :
  ReadAll_Body r = (body, Some e) ->
  handleWebhook json_Unmarshal enableLogging r store config w =
  (http_Error "Failed to read request body" StatusBadRequest,
   set_log (fun l => l ++ ["Error reading body: " +:+ e]) w).
Proof. intros Hread. unfold handleWebhook. rewrite Hread. reflexivity. Qed.

Lemma handleWebhook_invalid_json_eq r store config w body e :
  ReadAll_Body r = (body, None) -> json_Unmarshal body = Some e ->
  exists lines,
    handleWebhook json_Unmarshal enableLogging r store config w =
    (http_Error "Invalid JSON" StatusBadRequest,
     set_log (fun l => l ++ lines) w).
Proof.
  intros Hread Hjson. unfold handleWebhook. rewrite Hread.
  unfold bind at 1. destruct (log_request_eq enableLogging r body w) as [ls ->].
  rewrite Hjson. unfold bind, log_Printf, ret. rewrite set_log_app. eauto.
Qed.

(** The status of the response tells which step failed: 400 for a body that
    cannot be read or is not JSON, 500 for a failed [Store], 200 otherwise;
    and the body of an error response is one of three fixed lines, whatever
    the error was. *)
Theorem handleWebhook_status_classifies
        (r : Request) (store : Storage) (config : Config) (w : World) :
  let body := fst (ReadAll_Body r) in
  let readable := snd (ReadAll_Body r) = None in
  let valid := json_Unmarshal body = None in
  let stored := fst (Store store (request_key r w) (URL_Path r) body
                           (at_store enableLogging r w)) = None in
  let resp := fst (handleWebhook json_Unmarshal enableLogging r store config w) in
  (resp_status resp = 400 <-> ~ (readable /\ valid)) /\
  (resp_status resp = 500 <-> readable /\ valid /\ ~ stored) /\
  (resp_status resp = 200 <-> readable /\ valid /\ stored) /\
  (resp_status resp <> 200 ->
   resp_body resp = "Failed to read request body" +:+ newline \/
   resp_body resp = "Invalid JSON" +:+ newline \/
   resp_body resp = "Failed to store webhook" +:+ newline).
Proof.
  cbv zeta.
  destruct (ReadAll_Body r) as [body [e|]] eqn:Hread; simpl fst; simpl snd.
  - rewrite (handleWebhook_unreadable_eq r store config w body e Hread). simpl.
    unfold StatusBadRequest. intuition congruence.
  - destruct (json_Unmarshal body) as [e|] eqn:Hjson.
    + destruct (handleWebhook_invalid_json_eq r store config w body e Hread Hjson)
        as [lines ->]. simpl. unfold StatusBadRequest. intuition congruence.
    + rewrite (handleWebhook_store json_Unmarshal enableLogging r store config w body Hread Hjson).
      destruct (Store store _ _ _ _) as [[e|] w2]; simpl;
        unfold StatusInternalServerError, StatusOK; intuition congruence.
Qed.

End HandlerOutcomes.

Lemma RedisStorage_Store_frame key path body w :
  let w' := snd (RedisStorage_Store key path body w) in
  goroutines w' = goroutines w /\ mongo_coll w' = mongo_coll w /\
  clock_reads w' = clock_reads w /\ log w' = log w /\ fault w' = fault w /\
  clock w' = clock w /\
  calls w' = calls w ++ [CallRedisSet key body].
Proof.
  cbv zeta. rewrite RedisStorage_Store_eq.
  destruct (fault w OpRedisSet); repeat split.
Qed.

Lemma DualStorage_Store_frame key path body w :
  let w' := snd (DualStorage_Store key path body w) in
  goroutines w' = goroutines w /\ fault w' = fault w /\ clock w' = clock w.
Proof.
  cbv zeta.
  unfold DualStorage_Store, RedisStorage_Store, redis_Set, MongoDBStorage_Store,
    mongo_InsertOne, time_Now, bind, record_call, ret, log_Printf. simpl.
  destruct (fault w OpRedisSet); simpl; [repeat split|].
  destruct (fault w OpMongoInsertOne); repeat split.
Qed.

Section Dispatching.

Variable json_Unmarshal : string -> option error.
Variable enableLogging : bool.

(** With a backend that starts no goroutine of its own, the handler starts
    goroutines only when it answers 200, and then one for each target of the
    first rule matching the path, in their order, each with the raw body and
    the inbound headers; when no rule matches, or the response is an error,
    the goroutines waiting are those that were. *)
Theorem handleWebhook_one_goroutine_per_target
        (r : Request) (store : Storage) (config : Config) (w : World) :
  (forall key path body w',
      goroutines (snd (Store store key path body w')) = goroutines w') ->
  let out := handleWebhook json_Unmarshal enableLogging r store config w in
  let targets := findTargets (URL_Path r) config in
  (resp_status (fst out) = 200 ->
   goroutines (snd out) =
     goroutines w ++ map (fun t => mkGoroutine t (fst (ReadAll_Body r)) (Header r)) targets /\
   length (goroutines (snd out)) = (length (goroutines w) + length targets)%nat) /\
  (resp_status (fst out) <> 200 -> goroutines (snd out) = goroutines w).
Proof.
  intros Hstore. cbv zeta.
  destruct (at_store_fields enableLogging r w) as (_ & _ & _ & _ & Hgo & _).
  destruct (ReadAll_Body r) as [body [e|]] eqn:Hread; simpl fst.
  - rewrite (handleWebhook_unreadable_eq json_Unmarshal enableLogging r store config w body e Hread).
    simpl. unfold StatusBadRequest. split; [discriminate|reflexivity].
  - destruct (json_Unmarshal body) as [e|] eqn:Hjson.
    + destruct (handleWebhook_invalid_json_eq json_Unmarshal enableLogging r store config w body e Hread Hjson)
        as [lines ->]. simpl. unfold StatusBadRequest. split; [discriminate|reflexivity].
    + rewrite (handleWebhook_store json_Unmarshal enableLogging r store config w body Hread Hjson).
      specialize (Hstore (request_key r w) (URL_Path r) body (at_store enableLogging r w)).
      destruct (Store store _ _ _ _) as [[e|] w2]; simpl in *;
        rewrite Hstore, Hgo.
      * unfold StatusInternalServerError. split; [discriminate|reflexivity].
      * split; [|intros H; exfalso; apply H; reflexivity].
        intros _. split; [reflexivity|].
        rewrite length_app, length_map. reflexivity.
Qed.

End Dispatching.

Lemma handleWebhook_one_goroutine_per_target_witness :
  (forall key path body w',
      goroutines (snd (Store DualStorage key path body w')) = goroutines w') /\
  length (goroutines (snd (handleWebhook Json.Unmarshal true sample_request
                                         DualStorage sample_config world0))) = 2%nat.
Proof.
  assert (H : forall key path body w',
             goroutines (snd (Store DualStorage key path body w')) = goroutines w')
    by (intros; apply (DualStorage_Store_frame key path body w')).
  split; [exact H|].
  pose proof (handleWebhook_one_goroutine_per_target Json.Unmarshal true
                sample_request DualStorage sample_config world0 H) as P.
  cbv zeta in P. destruct P as [P _].
  destruct (P ltac:(vm_compute; reflexivity)) as [_ Hlen].
  rewrite Hlen. reflexivity.
Defined.

Section RootHandler.

Variable json_Unmarshal : string -> option error.
Variable homepage_html : string.
Variable enableLogging : bool.

(** A GET of "/" is answered with the homepage and leaves the world exactly
    as it was; every other request, a POST to "/" or a GET elsewhere, goes
    through [handleWebhook]. *)
Theorem rootHandler_homepage_only_for_GET_root
        (r : Request) (store : Storage) (config : Config) (w : World) :
  (Method r = "GET" /\ URL_Path r = "/" ->
   rootHandler json_Unmarshal homepage_html enableLogging r store config w =
   (mkResponse 200 {[ "Content-Type" := ["text/html; charset=utf-8"] ]} homepage_html, w)) /\
  (Method r <> "GET" \/ URL_Path r <> "/" ->
   rootHandler json_Unmarshal homepage_html enableLogging r store config w =
   handleWebhook json_Unmarshal enableLogging r store config w).
Proof.
  unfold rootHandler. split.
  - intros [-> ->]. simpl. unfold handleHomepage, ret, Header_Set.
    rewrite insert_empty. reflexivity.
  - intros [H|H].
    + destruct (String.eqb_spec (Method r) "GET"); [contradiction|reflexivity].
    + destruct (String.eqb_spec (URL_Path r) "/"); [contradiction|].
      rewrite andb_false_r. reflexivity.
Qed.

End RootHandler.

(* ===================================================================== *)
(** * Part 10. Further properties of the forwarder                       *)
(* ===================================================================== *)

Section ForwarderFacts.

Variable url_Parse : string -> option error.

Lemma forward_eq g w :
  exists line,
    forward url_Parse g w =
    (tt, set_log (fun l => l ++ [line]) (set_calls (fun l => l ++ attempts url_Parse g) w)).
Proof.
  unfold forward, attempts.
  destruct (http_NewRequest url_Parse "POST" (go_url g) (go_body g)) as [req|err].
  - unfold bind, client_Do, record_call, log_Printf. simpl.
    destruct (http_Do w _); eexists; reflexivity.
  - eexists. unfold log_Printf. f_equal. world_eq w.
Qed.

(** A forward writes one line to the log and makes at most one call, to the
    target; it reads and changes neither store, whatever the target
    answers, and it never makes a second attempt. *)
Theorem forward_touches_only_log_and_target (g : Goroutine) (w : World) :
  let w' := snd (forward url_Parse g w) in
  redis_db w' = redis_db w /\
  mongo_coll w' = mongo_coll w /\
  goroutines w' = goroutines w /\
  clock_reads w' = clock_reads w /\
  length (log w') = S (length (log w)) /\
  (url_Parse (go_url g) = None ->
   exists req, calls w' = calls w ++ [CallHttpDo req] /\ out_URL req = go_url g) /\
  (url_Parse (go_url g) <> None -> calls w' = calls w).
Proof.
  cbv zeta. destruct (forward_eq g w) as [line ->]. simpl.
  repeat split.
  - rewrite length_app. simpl. lia.
  - intros Hp. unfold attempts, http_NewRequest. rewrite Hp. eexists.
    split; reflexivity.
  - intros Hp. unfold attempts, http_NewRequest.
    destruct (url_Parse (go_url g)); [apply app_nil_r|contradiction].
Qed.

Lemma run_goroutine_eq i g w :
  goroutines w !! i = Some g ->
  exists line,
    run_goroutine url_Parse i w =
    (tt, set_log (fun l => l ++ [line])
           (set_calls (fun l => l ++ attempts url_Parse g)
              (set_goroutines (delete i) w))).
Proof.
  intros Hg. unfold run_goroutine. rewrite Hg.
  destruct (forward_eq g (set_goroutines (delete i) w)) as [line ->].
  exists line. reflexivity.
Qed.

(** In whatever order the goroutines come to run: once each of those that
    were waiting has run, none is waiting, every one of them has made its
    attempt exactly once (one call for a target whose request could be
    constructed, none otherwise) whatever the targets before it answered,
    the calls stand in the order the goroutines ran, and the stores are as
    they were. *)
Theorem run_schedule_attempts_each_target_once
        (schedule : list nat) (w : World) :
  complete_schedule (length (goroutines w)) schedule = true ->
  let w' := snd (run_schedule url_Parse schedule w) in
  goroutines w' = [] /\
  (exists order,
      Permutation order (goroutines w) /\
      calls w' = calls w ++ flat_map (attempts url_Parse) order) /\
  redis_db w' = redis_db w /\
  mongo_coll w' = mongo_coll w.
Proof.
  cbv zeta. revert w.
  induction schedule as [|i rest IH]; intros w Hs.
  - simpl in Hs. destruct (goroutines w) as [|g gs] eqn:Hg; [|discriminate Hs].
    simpl. split; [exact Hg|]. split; [|split; reflexivity].
    exists []. split; [constructor|]. rewrite app_nil_r. reflexivity.
  - simpl in Hs. destruct (length (goroutines w)) as [|n] eqn:Hlen;
      [discriminate Hs|].
    apply andb_true_iff in Hs as [Hi Hrest]. apply Nat.ltb_lt in Hi.
    destruct (lookup_lt_is_Some_2 (goroutines w) i ltac:(lia)) as [g Hg].
    simpl. unfold bind.
    destruct (run_goroutine_eq i g w Hg) as [line ->].
    set (w1 := set_log _ _).
    assert (Hlen1 : length (goroutines w1) = n).
    { subst w1. simpl. rewrite length_delete by eauto. lia. }
    rewrite <- Hlen1 in Hrest.
    destruct (IH w1 Hrest) as (H1 & (order & Hperm & H2) & H3 & H4).
    split; [exact H1|]. split; [|split; [rewrite H3|rewrite H4]; reflexivity].
    exists (g :: order). split.
    + subst w1. simpl in Hperm. rewrite Hperm.
      symmetry. apply delete_Permutation, Hg.
    + rewrite H2. subst w1. simpl. rewrite <- app_assoc. reflexivity.
Qed.

End ForwarderFacts.

Lemma run_schedule_attempts_each_target_once_witness :
  let w := snd (forwardToTargets ["http://a.example/in"; "http://b.example/in"]
                                 "[1,2]" ∅ world0) in
  complete_schedule (length (goroutines w)) [1%nat; 0%nat] = true /\
  goroutines (snd (run_schedule Url.Parse [1%nat; 0%nat] w)) = [] /\
  map (fun c => match c with CallHttpDo req => out_URL req | _ => "" end)
      (calls (snd (run_schedule Url.Parse [1%nat; 0%nat] w)))
    = ["http://b.example/in"; "http://a.example/in"].
Proof.
  cbv zeta.
  assert (H : complete_schedule
                (length (goroutines
                   (snd (forwardToTargets
                           ["http://a.example/in"; "http://b.example/in"]
                           "[1,2]" ∅ world0))))
                [1%nat; 0%nat] = true) by reflexivity.
  pose proof (run_schedule_attempts_each_target_once Url.Parse [1%nat; 0%nat]
                (snd (forwardToTargets
                        ["http://a.example/in"; "http://b.example/in"]
                        "[1,2]" ∅ world0)) H) as P.
  cbv zeta in P. destruct P as (Hnone & _).
  split; [exact H|]. split; [exact Hnone|]. vm_compute. reflexivity.
Defined.

(* ===================================================================== *)
(** * Part 11. Further properties of the storage backends                *)
(* ===================================================================== *)

Lemma filter_length_Permutation {A} (f : A -> bool) (l l' : list A) :
  Permutation l l' -> length (List.filter f l) = length (List.filter f l').
Proof.
  induction 1 as [|x l l' _ IH|x y l|l l' l'' _ IH1 _ IH2]; simpl.
  - reflexivity.
  - destruct (f x); simpl; rewrite IH; reflexivity.
  - destruct (f x), (f y); reflexivity.
  - rewrite IH1. exact IH2.
Qed.

Lemma count_keys_insert_fresh (f : string -> bool) (db : gmap string string) key v :
  db !! key = None ->
  length (List.filter f (map fst (map_to_list (<[key := v]> db)))) =
  ((if f key then 1 else 0) + length (List.filter f (map fst (map_to_list db))))%nat.
Proof.
  intros Hfresh.
  rewrite (filter_length_Permutation f _ (map fst ((key, v) :: map_to_list db))).
  - simpl. destruct (f key); reflexivity.
  - apply Permutation_map, map_to_list_insert, Hfresh.
Qed.

Lemma count_keys_insert_existing (f : string -> bool) (db : gmap string string) key v v' :
  db !! key = Some v' ->
  length (List.filter f (map fst (map_to_list (<[key := v]> db)))) =
  length (List.filter f (map fst (map_to_list db))).
Proof.
  intros Hold.
  rewrite <- (insert_delete_id db key v' Hold) at 2.
  rewrite <- (insert_delete_eq db key v).
  rewrite !count_keys_insert_fresh by apply lookup_delete_eq. reflexivity.
Qed.

Lemma Sprintf_key_has_prefix slug unixTime :
  glob_prefix_match "webhook-" (Sprintf_key slug unixTime) = true.
Proof.
  unfold glob_prefix_match, Sprintf_key.
  change ("webhook-" +:+ slug +:+ "-" +:+ fmt_d unixTime)
    with (String "w" (String "e" (String "b" (String "h" (String "o"
           (String "o" (String "k" (String "-" (slug +:+ "-" +:+ fmt_d unixTime))))))))).
  simpl. repeat (destruct (ascii_dec _ _); [|congruence]).
  destruct (slug +:+ "-" +:+ fmt_d unixTime); reflexivity.
Qed.

(** [Count] after [Store]: a key of the form the handler composes that was
    not in Redis adds one to the count; a key that was there leaves the count
    as it was, the later body taking the place of the earlier one; a key
    outside "webhook-*" is not counted. *)
Theorem RedisStorage_Count_after_Store (key path body : string) (w : World) :
  fault w OpRedisSet = None ->
  fault w OpRedisKeys = None ->
  let w' := snd (RedisStorage_Store key path body w) in
  let n := fst (fst (RedisStorage_Count w)) in
  let n' := fst (fst (RedisStorage_Count w')) in
  (glob_prefix_match "webhook-" key = true -> redis_db w !! key = None -> n' = n + 1) /\
  (redis_db w !! key <> None -> n' = n /\ redis_db w' !! key = Some body) /\
  (glob_prefix_match "webhook-" key = false -> n' = n) /\
  (forall slug unixTime, glob_prefix_match "webhook-" (Sprintf_key slug unixTime) = true).
Proof.
  intros Hset Hkeys. cbv zeta.
  rewrite RedisStorage_Store_eq, Hset, !RedisStorage_Count_eq. simpl.
  rewrite Hkeys. simpl.
  split; [|split; [|split]].
  - intros Hpre Hfresh. rewrite count_keys_insert_fresh, Hpre by exact Hfresh. lia.
  - intros Hold. destruct (redis_db w !! key) as [v'|] eqn:Hv; [|contradiction].
    split; [|apply lookup_insert_eq].
    rewrite (count_keys_insert_existing _ _ _ _ v' Hv). reflexivity.
  - intros Hpre. destruct (redis_db w !! key) as [v'|] eqn:Hv.
    + rewrite (count_keys_insert_existing _ _ _ _ v' Hv). reflexivity.
    + rewrite count_keys_insert_fresh, Hpre by exact Hv. reflexivity.
  - apply Sprintf_key_has_prefix.
Qed.

Lemma RedisStorage_Count_after_Store_witness :
  fault world0 OpRedisSet = None /\
  fault world0 OpRedisKeys = None /\
  fst (fst (RedisStorage_Count
              (snd (RedisStorage_Store "webhook-hooks-a-1700000000" "/hooks/a" "[1,2]"
                      world0)))) = 1.
Proof.
  pose proof (RedisStorage_Count_after_Store "webhook-hooks-a-1700000000" "/hooks/a"
                "[1,2]" world0 eq_refl eq_refl) as H.
  cbv zeta in H. destruct H as (H & _).
  split; [reflexivity|]. split; [reflexivity|].
  rewrite (H eq_refl eq_refl). reflexivity.
Defined.



(* ===================================================================== *)
(** * Part 12. The versions of the handler, and the decisions of Server  *)
(* ===================================================================== *)

Section Versions.

Variable json_Unmarshal : string -> option error.
Variable enableLogging : bool.

(** When both stores answer, a request accepted over the composite backend
    leaves the body in Redis under the key and, in MongoDB, a document with
    that key, the inbound path as it came and the body; [InsertOne] is given
    the reading of the clock after the one the key was made from, and the
    timestamp of the document is the datetime of that reading. *)
Theorem handleWebhook_dual_event
        (r : Request) (config : Config) (w : World) (body : string) :
  ReadAll_Body r = (body, None) ->
  json_Unmarshal body = None ->
  fault w OpRedisSet = None ->
  fault w OpMongoInsertOne = None ->
  let out := handleWebhook json_Unmarshal enableLogging r DualStorage config w in
  resp_status (fst out) = 200 /\
  redis_db (snd out) = <[request_key r w := body]> (redis_db w) /\
  mongo_coll (snd out) =
    mongo_coll w ++
    [Bson.mkDocument (request_key r w) (URL_Path r) body
       (Bson.NewDateTimeFromTime (clock w (S (clock_reads w))))] /\
  calls (snd out) =
    calls w ++ [CallRedisSet (request_key r w) body;
                CallMongoInsertOne (mkEvent (request_key r w) (URL_Path r) body
                                            (clock w (S (clock_reads w))))] /\
  clock_reads (snd out) = S (S (clock_reads w)).
Proof.
  intros Hread Hjson Hr Hm. cbv zeta.
  rewrite (handleWebhook_store json_Unmarshal enableLogging r DualStorage config w body Hread Hjson).
  destruct (at_store_fields enableLogging r w)
    as (Hdb & Hcoll & Hfault & Hcalls & _ & Hclock & Hreads).
  remember (at_store enableLogging r w) as ws eqn:Hws. clear Hws.
  rewrite <- Hfault in Hr, Hm.
  simpl Store.
  unfold DualStorage_Store, RedisStorage_Store, redis_Set, MongoDBStorage_Store,
    mongo_InsertOne, time_Now, bind, record_call, ret, log_Printf.
  simpl. rewrite Hr. simpl. rewrite Hm. simpl.
  rewrite Hdb, Hcoll, Hcalls, Hclock, Hreads, <- app_assoc. repeat split.
Qed.

(** The handler over the [Storage] interface, given the Redis backend,
    answers as the handler that wrote to Redis itself and leaves the same
    data, calls, goroutines and clock; the first handler is the second with
    the request log off and no dispatch rule. *)
Theorem handleWebhook_versions_agree
        (r : Request) (config : Config) (w : World) :
  let out := handleWebhook json_Unmarshal enableLogging r RedisStorage config w in
  let out_rdb := handleWebhook_rdb json_Unmarshal enableLogging r config w in
  fst out = fst out_rdb /\
  redis_db (snd out) = redis_db (snd out_rdb) /\
  mongo_coll (snd out) = mongo_coll (snd out_rdb) /\
  calls (snd out) = calls (snd out_rdb) /\
  goroutines (snd out) = goroutines (snd out_rdb) /\
  clock_reads (snd out) = clock_reads (snd out_rdb) /\
  length (log (snd out)) = length (log (snd out_rdb)) /\
  handleWebhook_v1 json_Unmarshal r w =
    handleWebhook_rdb json_Unmarshal false r (mkConfig 0 []) w.
Proof.
  cbv zeta.
  assert (Hv1 : handleWebhook_v1 json_Unmarshal r w =
                handleWebhook_rdb json_Unmarshal false r (mkConfig 0 []) w).
  { unfold handleWebhook_v1, handleWebhook_rdb.
    destruct (ReadAll_Body r) as [body [e|]]; [reflexivity|].
    unfold log_request, bind at 3, ret at 3.
    destruct (json_Unmarshal body); [reflexivity|].
    unfold bind, time_Now, redis_Set, record_call, log_Printf, ret. simpl.
    destruct (fault w OpRedisSet); reflexivity. }
  remember (handleWebhook_v1 json_Unmarshal r w =
            handleWebhook_rdb json_Unmarshal false r (mkConfig 0 []) w) as V eqn:HV.
  clear HV.
  destruct (ReadAll_Body r) as [body [e|]] eqn:Hread.
  - unfold handleWebhook, handleWebhook_rdb. rewrite Hread. simpl.
    repeat split. exact Hv1.
  - destruct (json_Unmarshal body) as [e|] eqn:Hjson.
    + unfold handleWebhook, handleWebhook_rdb. rewrite Hread. unfold bind.
      destruct (log_request enableLogging r body w) as [[] w1].
      rewrite Hjson. simpl. repeat split. exact Hv1.
    + rewrite (handleWebhook_store json_Unmarshal enableLogging r RedisStorage config w body Hread Hjson).
      rewrite (handleWebhook_rdb_store json_Unmarshal enableLogging r config w body Hread Hjson).
      simpl Store. unfold RedisStorage_Store.
      destruct (redis_Set _ _ _) as [[e|] w2]; simpl; repeat split;
        try exact Hv1; rewrite !length_app; reflexivity.
Qed.

(** When [loadConfig] fails, [Server] goes on with an empty configuration:
    with either backend no request ever starts a goroutine, and the
    response, both stores and the calls to them are those the same request
    has under any configuration. *)
Theorem Server_without_config_never_forwards
        (e : error) (mongoURI : string) (config : Config)
        (r : Request) (w : World) :
  let out := handleWebhook json_Unmarshal enableLogging r (Server_store mongoURI)
                           (Server_config (inr e)) w in
  let out_cfg := handleWebhook json_Unmarshal enableLogging r
                               (Server_store mongoURI) config w in
  goroutines (snd out) = goroutines w /\
  fst out = fst out_cfg /\
  redis_db (snd out) = redis_db (snd out_cfg) /\
  mongo_coll (snd out) = mongo_coll (snd out_cfg) /\
  calls (snd out) = calls (snd out_cfg).
Proof.
  cbv zeta.
  destruct (ReadAll_Body r) as [body [err|]] eqn:Hread.
  - unfold handleWebhook. rewrite Hread. simpl. repeat split.
  - destruct (json_Unmarshal body) as [err|] eqn:Hjson.
    + destruct (handleWebhook_invalid_json_eq json_Unmarshal enableLogging r
                  (Server_store mongoURI) (Server_config (inr e)) w body err
                  Hread Hjson) as [l1 ->].
      destruct (handleWebhook_invalid_json_eq json_Unmarshal enableLogging r
                  (Server_store mongoURI) config w body err Hread Hjson)
        as [l2 ->].
      repeat split.
    + rewrite !(handleWebhook_store json_Unmarshal enableLogging r
                  (Server_store mongoURI) _ w body Hread Hjson).
      destruct (at_store_fields enableLogging r w) as (_ & _ & _ & _ & Hgo & _).
      assert (Hg : goroutines (snd (Store (Server_store mongoURI)
                     (request_key r w) (URL_Path r) body
                     (at_store enableLogging r w)))
                   = goroutines (at_store enableLogging r w)).
      { unfold Server_store. destruct (String.eqb mongoURI ""); simpl Store.
        - apply RedisStorage_Store_frame.
        - apply DualStorage_Store_frame. }
      destruct (Store (Server_store mongoURI) _ _ _ _) as [[err|] w2];
        simpl in *; rewrite ?app_nil_r, Hg, Hgo; repeat split.
Qed.

(** With MONGODB_URI empty, [Server] builds the Redis backend, and no
    request makes the handler call MongoDB: the collection is as it was and
    the only call a request can add is the one Redis write. *)
Theorem Server_without_mongo_never_calls_mongo
        (r : Request) (config : Config) (w : World) :
  let out := handleWebhook json_Unmarshal enableLogging r (Server_store "") config w in
  mongo_coll (snd out) = mongo_coll w /\
  (calls (snd out) = calls w \/
   calls (snd out) = calls w ++ [CallRedisSet (request_key r w) (fst (ReadAll_Body r))]).
Proof.
  cbv zeta. change (Server_store "") with RedisStorage.
  destruct (ReadAll_Body r) as [body [err|]] eqn:Hread.
  - unfold handleWebhook. rewrite Hread. simpl. split; [reflexivity|left; reflexivity].
  - destruct (json_Unmarshal body) as [err|] eqn:Hjson.
    + destruct (handleWebhook_invalid_json_eq json_Unmarshal enableLogging r
                  RedisStorage config w body err Hread Hjson) as [l1 ->].
      split; [reflexivity|left; reflexivity].
    + rewrite (handleWebhook_store json_Unmarshal enableLogging r RedisStorage config w body Hread Hjson).
      destruct (at_store_fields enableLogging r w) as (_ & Hcoll & _ & Hcalls & _).
      destruct (RedisStorage_Store_frame (request_key r w) (URL_Path r) body
                  (at_store enableLogging r w)) as (_ & Hc & _ & _ & _ & _ & Hcs).
      simpl Store.
      destruct (RedisStorage_Store _ _ _ _) as [[err|] w2]; simpl in *;
        rewrite Hc, Hcs, Hcoll, Hcalls; split; try reflexivity; right; reflexivity.
Qed.

End Versions.

Lemma handleWebhook_dual_event_witness :
  ReadAll_Body sample_request = ("[1,2]", None) /\
  Json.Unmarshal "[1,2]" = None /\
  fault world_ns OpRedisSet = None /\
  fault world_ns OpMongoInsertOne = None /\
  mongo_coll (snd (handleWebhook Json.Unmarshal true sample_request DualStorage
                                 sample_config world_ns)) =
    [Bson.mkDocument "webhook-hooks-a-1700000000" "/hooks/a" "[1,2]" 1700000001123].
Proof.
  assert (H1 : ReadAll_Body sample_request = ("[1,2]", None)) by reflexivity.
  assert (H2 : Json.Unmarshal "[1,2]" = None) by (vm_compute; reflexivity).
  pose proof (handleWebhook_dual_event Json.Unmarshal true sample_request
                sample_config world_ns "[1,2]" H1 H2 eq_refl eq_refl) as H.
  cbv zeta in H. destruct H as (_ & _ & Hcoll & _).
  split; [exact H1|]. split; [exact H2|]. split; [reflexivity|]. split; [reflexivity|].
  rewrite Hcoll. vm_compute. reflexivity.
Defined.

(* ===================================================================== *)
(** * Part 13. Further properties of the key generator                   *)
(* ===================================================================== *)

Section SlugFacts.
Import GoString.

Ltac slug_byte_cases c :=
  destruct c as [[] [] [] [] [] [] [] []]; vm_compute; try reflexivity;
  intros Hbyte; first [reflexivity | discriminate Hbyte].

Lemma Trim_cons_cut s c : Trim (String c s) c = Trim s c.
Proof.
  unfold Trim. rewrite trimRightByte_cons.
  destruct (trimRightByte s c) as [|a t]; simpl; rewrite Ascii.eqb_refl; reflexivity.
Qed.

Lemma trimRightByte_app_cut s c :
  trimRightByte (s +:+ String c EmptyString) c = trimRightByte s c.
Proof.
  induction s as [|a s IH].
  - simpl. rewrite Ascii.eqb_refl. reflexivity.
  - rewrite append_cons, !trimRightByte_cons, IH. reflexivity.
Qed.

(** *** Strings the steps of [slugify] leave as they are *)

Lemma trimLeftByte_id s c :
  first_is (fun a => Ascii.eqb a c) s = false -> trimLeftByte s c = s.
Proof. destruct s as [|a s]; simpl; [reflexivity|]. intros ->. reflexivity. Qed.

Lemma trimRightByte_id s c :
  last_is (fun a => Ascii.eqb a c) s = false -> trimRightByte s c = s.
Proof.
  induction s as [|a s IH]; [reflexivity|].
  rewrite trimRightByte_cons. destruct s as [|b t].
  - simpl. intros ->. reflexivity.
  - intros H. rewrite IH by exact H. reflexivity.
Qed.

Lemma all_bytes_first_is (P Q : ascii -> bool) s :
  (forall c, P c = true -> Q c = false) ->
  all_bytes P s = true -> first_is Q s = false.
Proof.
  intros HPQ. destruct s as [|a s]; simpl; [reflexivity|].
  intros [Ha _]%andb_true_iff. apply HPQ, Ha.
Qed.

Lemma all_bytes_last_is (P Q : ascii -> bool) s :
  (forall c, P c = true -> Q c = false) ->
  all_bytes P s = true -> last_is Q s = false.
Proof.
  intros HPQ. induction s as [|a s IH]; [reflexivity|].
  simpl. intros [Ha Hs]%andb_true_iff. destruct s; [apply HPQ, Ha|apply IH, Hs].
Qed.

Lemma ReplaceAll_id s old new :
  all_bytes (fun a => negb (Ascii.eqb a old)) s = true -> ReplaceAll s old new = s.
Proof.
  induction s as [|a s IH]; simpl; [reflexivity|].
  intros [Ha Hs]%andb_true_iff. rewrite IH by exact Hs.
  destruct (Ascii.eqb a old); [discriminate Ha|reflexivity].
Qed.

Lemma replaceRuns_id cls repl b s :
  all_bytes (fun a => negb (cls a)) s = true -> replaceRuns cls repl b s = s.
Proof.
  revert b. induction s as [|a s IH]; intros b; simpl; [reflexivity|].
  intros [Ha Hs]%andb_true_iff.
  destruct (cls a); [discriminate Ha|]. rewrite IH by exact Hs. reflexivity.
Qed.

Lemma replaceRuns_hyphen_id s :
  no_adjacent is_hyphen s = true ->
  replaceRuns is_hyphen "-" false s = s /\
  (first_is is_hyphen s = false -> replaceRuns is_hyphen "-" true s = s).
Proof.
  induction s as [|a s IH]; [split; reflexivity|].
  rewrite no_adjacent_cons. intros [Ha Hs]%andb_true_iff.
  destruct (IH Hs) as [IH1 IH2]. simpl. destruct (is_hyphen a) eqn:Hh.
  - simpl in Ha. apply negb_true_iff in Ha.
    split; [|discriminate].
    rewrite IH2 by exact Ha. apply Ascii.eqb_eq in Hh. subst a. reflexivity.
  - rewrite IH1. split; reflexivity.
Qed.

Lemma slug_byte_lower_byte c : slug_byte c = true -> lower_byte c = c.
Proof. slug_byte_cases c. Qed.

Lemma slug_byte_slug_class c : slug_byte c = true -> slug_class c = true.
Proof. slug_byte_cases c. Qed.

Lemma slug_byte_not_slash c :
  slug_byte c = true -> negb (Ascii.eqb c "/") = true.
Proof. slug_byte_cases c. Qed.

Lemma ToLower_id s : all_bytes slug_byte s = true -> ToLower s = s.
Proof.
  induction s as [|a s IH]; simpl; [reflexivity|].
  intros [Ha Hs]%andb_true_iff. rewrite IH, slug_byte_lower_byte by assumption.
  reflexivity.
Qed.

Lemma slugify_steps_id s :
  all_bytes slug_byte s = true ->
  first_is is_hyphen s = false ->
  last_is is_hyphen s = false ->
  no_adjacent is_hyphen s = true ->
  slugify_steps s = s.
Proof.
  intros Hall Hfirst Hlast Hadj. unfold slugify_steps, ReplaceAllString, Trim.
  rewrite ReplaceAll_id
    by (apply (all_bytes_impl slug_byte); [apply slug_byte_not_slash|exact Hall]).
  rewrite (replaceRuns_id (fun c => negb (slug_class c))).
  - destruct (replaceRuns_hyphen_id s Hadj) as [-> _].
    rewrite (trimRightByte_id s "-") by exact Hlast.
    rewrite (trimLeftByte_id s "-") by exact Hfirst.
    apply ToLower_id, Hall.
  - apply (all_bytes_impl slug_byte); [|exact Hall].
    intros c Hc. rewrite (slug_byte_slug_class c Hc). reflexivity.
Qed.

End SlugFacts.

(** [slugify] is idempotent on every path whose slug is not empty; the empty
    slug is the one string it does not return for its own output, which it
    turns into "root". *)
Theorem slugify_idempotent_unless_empty (p : string) :
  (slugify p <> "" -> slugify (slugify p) = slugify p) /\
  (slugify p = "" -> slugify (slugify p) = "root").
Proof.
  split.
  - intros Hne. destruct (slugify_shape p) as (Hall & Hfirst & Hlast & Hadj).
    remember (slugify p) as s eqn:Hs. clear Hs p.
    unfold slugify.
    assert (Htrim : GoString.Trim s "/" = s).
    { unfold GoString.Trim.
      rewrite trimRightByte_id, trimLeftByte_id; [reflexivity| |].
      - apply (all_bytes_first_is slug_byte); [|exact Hall].
        intros c Hc. apply negb_true_iff, slug_byte_not_slash, Hc.
      - apply (all_bytes_last_is slug_byte); [|exact Hall].
        intros c Hc. apply negb_true_iff, slug_byte_not_slash, Hc. }
    rewrite Htrim. destruct (String.eqb_spec s ""); [contradiction|].
    apply slugify_steps_id; assumption.
  - intros ->. reflexivity.
Qed.

(** Slashes at either end of a path do not count: "/a", "a", "a/" and
    "//a//" have one slug, and so one key within a second. *)
Theorem slugify_ignores_outer_slashes (p : string) :
  slugify (String "/" p) = slugify p /\
  slugify (p +:+ "/") = slugify p.
Proof.
  unfold slugify. split.
  - rewrite Trim_cons_cut. reflexivity.
  - unfold GoString.Trim. rewrite trimRightByte_app_cut. reflexivity.
Qed.

Section SlugCase.
Import GoString.

Ltac case_byte_cases c :=
  destruct c as [[] [] [] [] [] [] [] []]; vm_compute; reflexivity.

Lemma lower_byte_idem c : lower_byte (lower_byte c) = lower_byte c.
Proof. case_byte_cases c. Qed.

Lemma is_slash_lower_byte c : Ascii.eqb (lower_byte c) "/" = Ascii.eqb c "/".
Proof. case_byte_cases c. Qed.

Lemma eqb_hyphen_lower_byte c : Ascii.eqb (lower_byte c) "-" = Ascii.eqb c "-".
Proof. case_byte_cases c. Qed.

Lemma not_slug_class_lower_byte c :
  negb (slug_class (lower_byte c)) = negb (slug_class c).
Proof. case_byte_cases c. Qed.

Lemma ToLower_idem s : ToLower (ToLower s) = ToLower s.
Proof.
  induction s as [|a s IH]; simpl; [reflexivity|].
  rewrite lower_byte_idem, IH. reflexivity.
Qed.

Lemma ToLower_trimLeftByte s c :
  (forall a, Ascii.eqb (lower_byte a) c = Ascii.eqb a c) ->
  trimLeftByte (ToLower s) c = ToLower (trimLeftByte s c).
Proof.
  intros Hc. induction s as [|a s IH]; simpl; [reflexivity|].
  rewrite Hc. destruct (Ascii.eqb a c); [exact IH|reflexivity].
Qed.

Lemma ToLower_trimRightByte s c :
  (forall a, Ascii.eqb (lower_byte a) c = Ascii.eqb a c) ->
  trimRightByte (ToLower s) c = ToLower (trimRightByte s c).
Proof.
  intros Hc. induction s as [|a s IH]; [reflexivity|].
  cbn [ToLower]. rewrite !trimRightByte_cons, IH, Hc.
  destruct (trimRightByte s c); [destruct (Ascii.eqb a c)|]; reflexivity.
Qed.

Lemma ToLower_Trim s c :
  (forall a, Ascii.eqb (lower_byte a) c = Ascii.eqb a c) ->
  Trim (ToLower s) c = ToLower (Trim s c).
Proof.
  intros Hc. unfold Trim.
  rewrite ToLower_trimRightByte, ToLower_trimLeftByte by exact Hc. reflexivity.
Qed.

Lemma ToLower_ReplaceAll_slash s :
  ReplaceAll (ToLower s) "/" "-" = ToLower (ReplaceAll s "/" "-").
Proof.
  induction s as [|a s IH]; simpl; [reflexivity|].
  rewrite IH, is_slash_lower_byte.
  destruct (Ascii.eqb a "/"); reflexivity.
Qed.

Lemma ToLower_replaceRuns cls b s :
  (forall a, cls (lower_byte a) = cls a) ->
  replaceRuns cls "-" b (ToLower s) = ToLower (replaceRuns cls "-" b s).
Proof.
  intros Hc. revert b. induction s as [|a s IH]; intros b; simpl; [reflexivity|].
  rewrite Hc. destruct (cls a).
  - destruct b; rewrite IH; reflexivity.
  - rewrite IH. reflexivity.
Qed.

Lemma ToLower_empty s : String.eqb (ToLower s) "" = String.eqb s "".
Proof. destruct s; reflexivity. Qed.

Lemma slugify_steps_ToLower s : slugify_steps (ToLower s) = slugify_steps s.
Proof.
  unfold slugify_steps, ReplaceAllString.
  rewrite ToLower_ReplaceAll_slash.
  rewrite (ToLower_replaceRuns (fun c => negb (slug_class c)))
    by exact not_slug_class_lower_byte.
  rewrite (ToLower_replaceRuns is_hyphen) by exact eqb_hyphen_lower_byte.
  rewrite ToLower_Trim by exact eqb_hyphen_lower_byte.
  apply ToLower_idem.
Qed.

Lemma slugify_ToLower p : slugify (ToLower p) = slugify p.
Proof.
  unfold slugify. rewrite ToLower_Trim by exact is_slash_lower_byte.
  rewrite ToLower_empty, slugify_steps_ToLower. reflexivity.
Qed.

(** *** When a slug is empty *)

Lemma ToLower_nil s : ToLower s = "" -> s = "".
Proof. destruct s; [reflexivity|discriminate]. Qed.

Lemma trimLeftByte_nil s c :
  trimLeftByte s c = "" <-> all_bytes (fun a => Ascii.eqb a c) s = true.
Proof.
  induction s as [|a s IH]; simpl; [tauto|].
  destruct (Ascii.eqb a c); simpl; [exact IH|]. split; discriminate.
Qed.

Lemma all_bytes_cut_trimRightByte s c :
  all_bytes (fun a => Ascii.eqb a c) (trimRightByte s c)
  = all_bytes (fun a => Ascii.eqb a c) s.
Proof.
  induction s as [|a s IH]; [reflexivity|].
  rewrite trimRightByte_cons. cbn [all_bytes]. rewrite <- IH.
  destruct (trimRightByte s c); [|reflexivity].
  destruct (Ascii.eqb a c) eqn:E; simpl; rewrite ?E; reflexivity.
Qed.

Lemma Trim_nil s c :
  Trim s c = "" <-> all_bytes (fun a => Ascii.eqb a c) s = true.
Proof.
  unfold Trim. rewrite trimLeftByte_nil, all_bytes_cut_trimRightByte. tauto.
Qed.

Lemma all_bytes_replaceRuns_eq (cls P : ascii -> bool) b s :
  P "-"%char = true ->
  all_bytes P (replaceRuns cls "-" b s)
  = all_bytes (fun c => cls c || P c) s.
Proof.
  intros Hh. revert b. induction s as [|a s IH]; intros b; simpl; [reflexivity|].
  destruct (cls a); simpl.
  - destruct b; [apply IH|].
    change ("-" +:+ replaceRuns cls "-" true s)
      with (String "-" (replaceRuns cls "-" true s)).
    cbn [all_bytes]. rewrite IH, Hh. reflexivity.
  - rewrite IH. reflexivity.
Qed.

Lemma all_bytes_ext (P Q : ascii -> bool) s :
  (forall c, P c = Q c) -> all_bytes P s = all_bytes Q s.
Proof.
  intros H. induction s as [|a s IH]; simpl; [reflexivity|].
  rewrite H, IH. reflexivity.
Qed.

Lemma all_bytes_ReplaceAll (Q : ascii -> bool) s old new :
  all_bytes Q (ReplaceAll s old new)
  = all_bytes (fun a => Q (if Ascii.eqb a old then new else a)) s.
Proof.
  induction s as [|a s IH]; simpl; [reflexivity|]. rewrite IH. reflexivity.
Qed.

Lemma all_bytes_trimLeftByte_cut (P : ascii -> bool) s c :
  P c = true -> all_bytes P (trimLeftByte s c) = all_bytes P s.
Proof.
  intros Hc. induction s as [|a s IH]; simpl; [reflexivity|].
  destruct (Ascii.eqb_spec a c) as [->|]; [|reflexivity].
  rewrite Hc. exact IH.
Qed.

Lemma all_bytes_trimRightByte_cut (P : ascii -> bool) s c :
  P c = true -> all_bytes P (trimRightByte s c) = all_bytes P s.
Proof.
  intros Hc. induction s as [|a s IH]; [reflexivity|].
  rewrite trimRightByte_cons. cbn [all_bytes]. rewrite <- IH.
  destruct (trimRightByte s c); [|reflexivity].
  destruct (Ascii.eqb_spec a c) as [->|]; simpl; rewrite ?Hc, ?andb_true_r;
    reflexivity.
Qed.

Lemma no_word_after_slash c :
  (let c' := if Ascii.eqb c "/" then "-"%char else c in
   negb (slug_class c') || (is_hyphen c' || is_hyphen c'))
  = negb (slug_class c) || is_hyphen c.
Proof. case_byte_cases c. Qed.

Lemma slugify_steps_nil s :
  slugify_steps s = "" <->
  all_bytes (fun c => negb (slug_class c) || is_hyphen c) s = true.
Proof.
  unfold slugify_steps, ReplaceAllString.
  assert (Heq : all_bytes (fun a => Ascii.eqb a "-")
                  (replaceRuns is_hyphen "-" false
                     (replaceRuns (fun c => negb (slug_class c)) "-" false
                        (ReplaceAll s "/" "-")))
                = all_bytes (fun c => negb (slug_class c) || is_hyphen c) s).
  { change (fun a => Ascii.eqb a "-") with is_hyphen.
    rewrite (all_bytes_replaceRuns_eq is_hyphen is_hyphen) by reflexivity.
    rewrite (all_bytes_replaceRuns_eq (fun c => negb (slug_class c)))
      by reflexivity.
    rewrite all_bytes_ReplaceAll.
    apply all_bytes_ext. intros c. apply no_word_after_slash. }
  rewrite <- Heq. split.
  - intros H%ToLower_nil%Trim_nil. exact H.
  - intros H%Trim_nil. rewrite H. reflexivity.
Qed.

End SlugCase.

(** The key generator does not see the case of ASCII letters: two paths
    that agree once 'A'..'Z' are moved to 'a'..'z' have the same slug, and
    so the same key within a second. *)
Theorem slugify_case_insensitive (p q : string) :
  GoString.ToLower p = GoString.ToLower q -> slugify p = slugify q.
Proof.
  intros H. rewrite <- (slugify_ToLower p), <- (slugify_ToLower q), H.
  reflexivity.
Qed.

Lemma slugify_case_insensitive_witness :
  GoString.ToLower "/Hooks/GitHub" = GoString.ToLower "/hooks/github" /\
  slugify "/Hooks/GitHub" = slugify "/hooks/github".
Proof.
  assert (H : GoString.ToLower "/Hooks/GitHub" = GoString.ToLower "/hooks/github")
    by reflexivity.
  split; [exact H|].
  exact (slugify_case_insensitive "/Hooks/GitHub" "/hooks/github" H).
Defined.

(** The slug is empty exactly for the paths that keep a byte after their
    outer slashes are cut and have no letter, digit or underscore: all
    these paths share the keys "webhook--<ts>". *)
Theorem slugify_empty_iff (p : string) :
  slugify p = "" <->
  GoString.Trim p "/" <> "" /\
  GoString.all_bytes (fun c => negb (slug_class c) || GoString.is_hyphen c) p
    = true.
Proof.
  assert (Hcut : GoString.all_bytes
            (fun c => negb (slug_class c) || GoString.is_hyphen c)
            (GoString.Trim p "/")
          = GoString.all_bytes
            (fun c => negb (slug_class c) || GoString.is_hyphen c) p).
  { unfold GoString.Trim.
    rewrite all_bytes_trimLeftByte_cut, all_bytes_trimRightByte_cut;
      reflexivity. }
  unfold slugify. rewrite <- Hcut.
  destruct (String.eqb_spec (GoString.Trim p "/") "") as [E|E].
  - split; [discriminate|]. intros [Hne _]. contradiction.
  - rewrite slugify_steps_nil. tauto.
Qed.

(* ===================================================================== *)
(** * Part 14. The request log                                           *)
(* ===================================================================== *)

Section RequestLog.

Variable json_Unmarshal : string -> option error.

(** Turning the request log on changes the log and nothing else: with
    either backend [Server] builds, the response, both stores, the calls to
    the services, the goroutines started and the readings of the clock are
    those of the run without it. *)
Theorem request_log_changes_only_the_log
        (mongoURI : string) (r : Request) (config : Config) (w : World) :
  let on := handleWebhook json_Unmarshal true r (Server_store mongoURI) config w in
  let off := handleWebhook json_Unmarshal false r (Server_store mongoURI) config w in
  fst on = fst off /\
  redis_db (snd on) = redis_db (snd off) /\
  mongo_coll (snd on) = mongo_coll (snd off) /\
  calls (snd on) = calls (snd off) /\
  goroutines (snd on) = goroutines (snd off) /\
  clock_reads (snd on) = clock_reads (snd off).
Proof.
  intros on off. subst on off.
  destruct (ReadAll_Body r) as [body [e|]] eqn:Hread.
  - rewrite !(handleWebhook_unreadable_eq _ _ r _ config w body e Hread).
    repeat split.
  - destruct (json_Unmarshal body) as [e|] eqn:Hjson.
    + destruct (handleWebhook_invalid_json_eq json_Unmarshal true r
                  (Server_store mongoURI) config w body e Hread Hjson)
        as [l1 ->].
      destruct (handleWebhook_invalid_json_eq json_Unmarshal false r
                  (Server_store mongoURI) config w body e Hread Hjson)
        as [l0 ->].
      repeat split.
    + rewrite !(handleWebhook_store json_Unmarshal _ r _ config w body Hread Hjson).
      unfold at_store. rewrite Hread. cbn [fst].
      destruct (log_request_eq true r body w) as [l1 ->].
      destruct (log_request_eq false r body w) as [l0 ->].
      simpl snd.
      unfold Server_store. destruct (String.eqb mongoURI ""); simpl Store.
      * rewrite !RedisStorage_Store_eq. destruct w as [db mc f h c n cs lg gs].
        simpl. destruct (f OpRedisSet); simpl; repeat split.
      * rewrite !DualStorage_Store_eq, !RedisStorage_Store_eq.
        destruct w as [db mc f h c n cs lg gs]. simpl.
        destruct (f OpRedisSet); simpl; [repeat split|].
        rewrite !MongoDBStorage_Store_eq. simpl.
        destruct (f OpMongoInsertOne); simpl; repeat split.
Qed.

End RequestLog.
